(** * auto_commit.py: the Go-file watcher that stages, commits and pushes

    A shallow embedding of [src/auto_commit.py] and the properties of its
    four parts: the Analyzer ([analyze_file]), the Committer
    ([commit_changes]), the File Scanner ([get_go_files]) and the Watch
    Loop ([main]).

    Conventions of the embedding.
    - Python [str] values are [string]s.  Every keyword the program looks
      for is ASCII, so searching the UTF-8 bytes finds exactly what
      searching the code points finds.
    - A modification time is a [Z]: the program only compares mtimes with
      [>] among themselves and with the literal [0], and every finite
      float is an integer multiple of one fixed power of two, so the
      order-preserving scaling into [Z] loses nothing.
    - The [file_mtimes] dict is a [gmap string Z].
    - What the program does to the outside (sub-processes, console, sleep)
      is recorded as a list of [event]s; what the outside answers is read
      from an environment record. *)

From Stdlib Require Import ZArith Ascii String List DecimalString.
From stdpp Require Import base option list strings gmap fin_maps.

Local Open Scope string_scope.
Local Open Scope list_scope.
Local Open Scope Z_scope.

(** ** Python string primitives used by the program *)

Module PyStr.

(** [needle in content] on Python strings. *)
Fixpoint contains (needle content : string) : bool :=
  String.prefix needle content ||
  match content with
  | EmptyString => false
  | String _ rest => contains needle rest
  end.

(** [sep.join(parts)]. *)
Fixpoint join (sep : string) (parts : list string) : string :=
  match parts with
  | [] => EmptyString
  | [p] => p
  | p :: rest => p +:+ sep +:+ join sep rest
  end.

(** [content.split(sep)] for a one-character separator: the pieces
    between consecutive separators, empty pieces included. *)
Fixpoint split (sep : ascii) (content : string) : list string :=
  match content with
  | EmptyString => [EmptyString]
  | String c rest =>
      if Ascii.eqb c sep then EmptyString :: split sep rest
      else match split sep rest with
           | [] => [String c EmptyString]
           | piece :: pieces => String c piece :: pieces
           end
  end.

(** [chr(10)]. *)
Definition chr10 : ascii := Ascii.ascii_of_nat 10.

(** The newline as a string. *)
Definition newline : string := String chr10 EmptyString.

(** A Go import path as the source spells it: the name between two
    double-quote characters. *)
Definition quoted (name : string) : string :=
  String (Ascii.ascii_of_nat 34) (name +:+ String (Ascii.ascii_of_nat 34) EmptyString).

(** The same with only the opening quote, as in the check for an
    [io/...] sub-package. *)
Definition open_quoted (name : string) : string :=
  String (Ascii.ascii_of_nat 34) name.

(** [str(n)] for a non-negative integer, as a format field renders it. *)
Definition str_of_nat (n : nat) : string :=
  NilEmpty.string_of_uint (Nat.to_uint n).

(** Number of occurrences of a character. *)
Fixpoint count_char (c : ascii) (s : string) : nat :=
  match s with
  | EmptyString => 0%nat
  | String d rest => ((if Ascii.eqb d c then 1 else 0) + count_char c rest)%nat
  end.

(** [s.rfind(c)] for a one-character [c]: the highest index holding
    [c], or [-1]; [i] is the index of the head of [s]. *)
Fixpoint rfind_from (c : ascii) (s : string) (i : Z) : Z :=
  match s with
  | EmptyString => -1
  | String d rest =>
      let later := rfind_from c rest (i + 1) in
      if 0 <=? later then later
      else if Ascii.eqb d c then i else -1
  end.

Definition rfind (c : ascii) (s : string) : Z := rfind_from c s 0.

(** [s[i:j]] for [0 <= i <= j]. *)
Definition slice (i j : Z) (s : string) : string :=
  String.substring (Z.to_nat i) (Z.to_nat (j - i)) s.

(** [s[i:]] for [0 <= i]. *)
Definition slice_from (i : Z) (s : string) : string :=
  String.substring (Z.to_nat i) (String.length s - Z.to_nat i) s.

(** True when some character of [s] differs from [c]. *)
Fixpoint has_other_than (c : ascii) (s : string) : bool :=
  match s with
  | EmptyString => false
  | String d rest => negb (Ascii.eqb d c) || has_other_than c rest
  end.

End PyStr.

(** ** The Analyzer *)

(** [features.append(label)] guarded by one [if]. *)
Definition append_if (test : bool) (label : string) (features : list string)
  : list string :=
  if test then features ++ [label] else features.

(** [analyze_file(content, file_name)], check by check in source order. *)
Definition analyze_file (content file_name : string) : list string :=
  let has needle := PyStr.contains needle content in
  let features := [] in
  let features := append_if (has "import (") "imports" features in
  let features := append_if (has "package main") "main package" features in
  let features := append_if (has "func ") "functions" features in
  let features := append_if (has "struct {" || has "type ") "types" features in
  let features := append_if (has "interface {") "interface" features in
  let features :=
    append_if (has "goroutine" || has "go func" || has "go ") "goroutines" features in
  let features := append_if (has "chan " || has "channel") "channels" features in
  let features := append_if (has "defer ") "defer" features in
  let features := append_if (has (PyStr.quoted "fmt")) "fmt" features in
  let features := append_if (has (PyStr.quoted "net/http")) "http" features in
  let features := append_if (has (PyStr.quoted "encoding/json")) "json" features in
  let features :=
    append_if (has (PyStr.quoted "io") || has (PyStr.open_quoted "io/")) "io" features in
  let features := append_if (has (PyStr.quoted "os")) "os" features in
  let features := append_if (has (PyStr.quoted "sync")) "sync" features in
  let features := append_if (has "make(map" || has "map[") "map" features in
  let features := append_if (has "make([]" || has "[]") "slice" features in
  let features := append_if (has "append(") "append" features in
  let features := append_if (has "if err != nil") "error handling" features in
  features.

(** The fixed checklist: the labels in the order of their checks. *)
Definition checklist : list string :=
  [ "imports"; "main package"; "functions"; "types"; "interface";
    "goroutines"; "channels"; "defer"; "fmt"; "http"; "json"; "io"; "os";
    "sync"; "map"; "slice"; "append"; "error handling" ].

(** The checks themselves, for a given content: the outcome of each test
    with the label it guards, in source order. *)
Definition checks (content : string) : list (bool * string) :=
  let has needle := PyStr.contains needle content in
  [ (has "import (", "imports");
    (has "package main", "main package");
    (has "func ", "functions");
    (has "struct {" || has "type ", "types");
    (has "interface {", "interface");
    (has "goroutine" || has "go func" || has "go ", "goroutines");
    (has "chan " || has "channel", "channels");
    (has "defer ", "defer");
    (has (PyStr.quoted "fmt"), "fmt");
    (has (PyStr.quoted "net/http"), "http");
    (has (PyStr.quoted "encoding/json"), "json");
    (has (PyStr.quoted "io") || has (PyStr.open_quoted "io/"), "io");
    (has (PyStr.quoted "os"), "os");
    (has (PyStr.quoted "sync"), "sync");
    (has "make(map" || has "map[", "map");
    (has "make([]" || has "[]", "slice");
    (has "append(", "append");
    (has "if err != nil", "error handling") ].

(** The labels of the checks that hold. *)
Definition selected (cs : list (bool * string)) : list string :=
  (List.filter fst cs).*2.

(** ** Path helpers of [os.path] (POSIX flavour) *)

(** [os.path.basename(p)]: what follows the last slash. *)
Definition basename (p : string) : string :=
  PyStr.slice_from (PyStr.rfind "/" p + 1) p.

(** [os.path.splitext(p)]: the extension starts at the last dot of the
    last component, unless only dots precede it there. *)
Definition splitext (p : string) : string * string :=
  let sepIndex := PyStr.rfind "/" p in
  let dotIndex := PyStr.rfind "." p in
  if (sepIndex <? dotIndex)
     && PyStr.has_other_than "." (PyStr.slice (sepIndex + 1) dotIndex p)
  then (PyStr.slice 0 dotIndex p, PyStr.slice_from dotIndex p)
  else (p, EmptyString).

(** ** Exceptions, effects and the environment *)

(** The exceptions the steps of the program can meet; all of them are
    instances of Python's [Exception]. *)
Inductive exn : Type :=
  | TimeoutExpired (message : string)
  | OSError (message : string)
  | UnicodeDecodeError (message : string)
  | UnicodeEncodeError (message : string)
  | OtherException (message : string).

(** [str(e)], as the handler prints it. *)
Definition str_exn (e : exn) : string :=
  match e with
  | TimeoutExpired m | OSError m | UnicodeDecodeError m
  | UnicodeEncodeError m | OtherException m => m
  end.

(** What leaves a call abnormally: an [Exception], or the operator's
    [KeyboardInterrupt], which is a [BaseException] that [except Exception]
    lets through. *)
Inductive raised : Type :=
  | Exc (e : exn)
  | KeyboardInterrupt.

Inductive result (A : Type) : Type :=
  | Ok (a : A)
  | Raise (r : raised).
Arguments Ok {A} a.
Arguments Raise {A} r.

(** What the program does to the outside world. *)
Inductive event : Type :=
  | Run (cmd : list string) (cwd : string) (timeout : option Z)
      (** [subprocess.run(cmd, cwd=cwd, timeout=timeout)] *)
  | OpenRead (path : string)
      (** [open(path, 'r', encoding='utf-8').read()] *)
  | Print (line : string)
  | Sleep (milliseconds : Z)
  | CommitChanges (file_path repo_path : string)
      (** the Watch Loop calls [commit_changes(file_path, repo_path)] *).

(** [isinstance(e, OSError)], the test of the handler in the Watch
    Loop. *)
Definition is_OSError (e : exn) : bool :=
  match e with OSError _ => true | _ => false end.

(** What the outside world answers during one period of the run (start-up,
    one poll cycle, one call of [commit_changes]): the return code of each
    sub-process (or the exception [subprocess.run] raises, [TimeoutExpired]
    among them); the decoded text of a file, line ends already translated
    to [chr(10)] (or the exception of [open]/[read]); whether [print] of a
    line succeeds or raises ([UnicodeEncodeError] for a line the console
    cannot encode, [OSError] on a closed console); whether the operator's
    interrupt arrives during a [time.sleep]; and whether the directory walk
    of [Path.glob] raises. *)
Record environment : Type := {
  subprocess_returns : list string -> string -> result Z;
  file_text : string -> result string;
  console : string -> result unit;
  sleep_interrupted : Z -> bool;
  scan_raises : option raised
}.

(** A computation: the events it caused, and how it ended. *)
Definition M (A : Type) : Type := list event * result A.

Definition ret {A : Type} (a : A) : M A := ([], Ok a).

Definition bind {A B : Type} (m : M A) (k : A -> M B) : M B :=
  match m with
  | (evs, Ok a) => let '(evs', r) := k a in (evs ++ evs', r)
  | (evs, Raise r) => (evs, Raise r)
  end.

Notation "x <- c1 ;; c2" := (bind c1 (fun x => c2))
  (at level 100, c1 at next level, right associativity).

(** [try: body  except Exception as e: handler(e)]. *)
Definition try_except_Exception {A : Type} (body : M A) (handler : exn -> M A)
  : M A :=
  match body with
  | (evs, Raise (Exc e)) => let '(evs', r) := handler e in (evs ++ evs', r)
  | finished => finished
  end.

Definition subprocess_run (env : environment) (cmd : list string)
    (cwd : string) (timeout : option Z) : M Z :=
  ([Run cmd cwd timeout], subprocess_returns env cmd cwd).

Definition read_text (env : environment) (path : string) : M string :=
  ([OpenRead path], file_text env path).

(** [print(line)]: the call is an event whether or not it succeeds. *)
Definition print (env : environment) (line : string) : M unit :=
  ([Print line], console env line).

(** [time.sleep(seconds)]. *)
Definition sleep (env : environment) (milliseconds : Z) : M unit :=
  ([Sleep milliseconds],
   if sleep_interrupted env milliseconds then Raise KeyboardInterrupt
   else Ok tt).

(** ** The Committer *)

Definition author : string := "--author=Geltrax69 <10lalitsingh01@gmail.com>".

(** Lines 86-90: the commit message for a file name and its content. *)
Definition commit_message (file_name content : string) : string :=
  let features := analyze_file content file_name in
  let feature_str :=
    match features with
    | [] => "code update"
    | _ => PyStr.join ", " (take 3 features)
    end in
  let base_name := fst (splitext file_name) in
  "Update " +:+ base_name +:+ ": " +:+ feature_str +:+ " (" +:+
  PyStr.str_of_nat (length (PyStr.split PyStr.chr10 content)) +:+ " lines)".

(** The body of the [try] of [commit_changes]: [Some b] when it reaches
    [return b], [None] when it falls out of the [try] block. *)
Definition commit_changes_body (env : environment) (file_path repo_path : string)
  : M (option bool) :=
  let file_name := basename file_path in
  _ <- subprocess_run env ["git"; "add"; file_name] repo_path (Some 5) ;;
  result <- subprocess_run env ["git"; "diff"; "--cached"; "--quiet"]
              repo_path (Some 5) ;;
  if negb (result =? 0) then
    content <- read_text env file_path ;;
    let msg := commit_message file_name content in
    result <- subprocess_run env ["git"; "commit"; "-m"; msg; author]
                repo_path None ;;
    if result =? 0 then
      _ <- print env ("✓ Committed: " +:+ msg) ;;
      push_result <- subprocess_run env ["git"; "push"; "origin"; "main"]
                       repo_path (Some 10) ;;
      _ <- (if push_result =? 0 then print env "  📤 Pushed to GitHub"
            else print env "  ⚠️  Push failed (check connection)") ;;
      ret (Some true)
    else ret None
  else ret None.

(** [commit_changes(file_path, repo_path)]. *)
Definition commit_changes (env : environment) (file_path repo_path : string)
  : M bool :=
  returned <- try_except_Exception
                (commit_changes_body env file_path repo_path)
                (fun e => _ <- print env ("Error: " +:+ str_exn e) ;; ret None) ;;
  match returned with
  | Some b => ret b
  | None => ret false
  end.

(** ** The file system and [pathlib] *)

(** A directory tree: regular files, and directories with their named
    entries.  (Symbolic links are left out: [**] does not descend into
    them.) *)
#[warnings="-register-all"]
Inductive node : Type :=
  | File
  | Dir (entries : list (string * node)).

(** An absolute, normalised path is the list of its components, as a
    [pathlib.Path] holds them; [str_path] is [str(path)]. *)
Definition str_path (parts : list string) : string :=
  "/" +:+ PyStr.join "/" parts.

Fixpoint find_entry (name : string) (entries : list (string * node))
  : option node :=
  match entries with
  | [] => None
  | (n, child) :: rest =>
      if String.eqb n name then Some child else find_entry name rest
  end.

(** The node a path leads to, if any. *)
Fixpoint resolve (fs : node) (parts : list string) : option node :=
  match parts with
  | [] => Some fs
  | name :: rest =>
      match fs with
      | File => None
      | Dir entries =>
          match find_entry name entries with
          | Some child => resolve child rest
          | None => None
          end
      end
  end.

(** [os.path.exists], [os.path.isfile] and [Path.is_file]. *)
Definition exists_path (fs : node) (parts : list string) : bool :=
  match resolve fs parts with Some _ => true | None => false end.

Definition is_file (n : node) : bool :=
  match n with File => true | Dir _ => false end.

Definition isfile (fs : node) (parts : list string) : bool :=
  match resolve fs parts with Some n => is_file n | None => false end.

(** [os.path.dirname] of an absolute normalised path. *)
Definition dirname (parts : list string) : list string := removelast parts.

(** [fnmatch] of one path component against a pattern made of literal
    characters and [*] (all that the fixed pattern [*.go] uses). *)
Fixpoint fnmatch (pattern name : string) : bool :=
  match pattern with
  | EmptyString =>
      match name with EmptyString => true | String _ _ => false end
  | String p pattern' =>
      if Ascii.eqb p "*" then
        (fix star (name : string) : bool :=
           fnmatch pattern' name ||
           match name with
           | EmptyString => false
           | String _ name' => star name'
           end) name
      else
        match name with
        | EmptyString => false
        | String c name' => Ascii.eqb p c && fnmatch pattern' name'
        end
  end.

(** [Path(dir).glob(pattern)] for a one-component pattern: the entries of
    the directory whose name matches, in directory order. *)
Definition glob_children (pattern : string) (dir : list string) (n : node)
  : list (list string * node) :=
  match n with
  | File => []
  | Dir entries =>
      map (fun e => (dir ++ [e.1], e.2))
          (List.filter (fun e => fnmatch pattern e.1) entries)
  end.

(** The directories [**] stands for: the starting directory itself, then
    every directory beneath it, parents first. *)
Fixpoint iterate_directories (dir : list string) (n : node)
  : list (list string * node) :=
  match n with
  | File => []
  | Dir entries =>
      (dir, n) ::
      flat_map (fun e => iterate_directories (dir ++ [e.1]) e.2) entries
  end.

(** [Path(dir).glob('**/' + pattern)]. *)
Definition glob_recursive (pattern : string) (dir : list string) (n : node)
  : list (list string * node) :=
  flat_map (fun d => glob_children pattern d.1 d.2) (iterate_directories dir n).

(** ** The File Scanner *)

(** [get_go_files(repo_path)] on the file system [fs]. *)
Definition get_go_files (fs : node) (repo_path : list string) : list string :=
  match resolve fs repo_path with
  | None => []
  | Some root =>
      let go_files := [] in
      let go_files :=
        foldl (fun go_files ext =>
                 let go_files := go_files ++ glob_children ext repo_path root in
                 (* Also search subdirectories *)
                 go_files ++ glob_recursive ext repo_path root)
              go_files ["*.go"] in
      map (fun f => str_path f.1) (List.filter (fun f => is_file f.2) go_files)
  end.

(** ** The Watch Loop *)

(** [os.path.relpath(path, start)] for a path beneath [start]. *)
Definition relpath (path start : string) : string :=
  let start_slash := if String.eqb start "/" then start else start +:+ "/" in
  if String.prefix start_slash path
  then PyStr.slice_from (Z.of_nat (String.length start_slash)) path
  else path.

(** One [os.path.getmtime] call per scanned path, in scan order: the
    [i]-th call of a pass answers [getmtime i], an mtime or [None] for
    [OSError]. *)
Definition observe (getmtime : nat -> option Z) (files : list string)
  : list (string * option Z) :=
  imap (fun i f => (f, getmtime i)) files.

(** Lines 158-163: the initial [file_mtimes]. *)
Fixpoint track_initial (reads : list (string * option Z))
    (file_mtimes : gmap string Z) : gmap string Z :=
  match reads with
  | [] => file_mtimes
  | (f, read) :: rest =>
      track_initial rest
        (<[f := match read with Some mtime => mtime | None => 0 end]> file_mtimes)
  end.

(** The body of the loop is written twice.  First as functions of the
    scanned paths and their reads, for passes in which every [print],
    every [sleep] and every call of the Committer returns: what such a pass
    does to [file_mtimes] and which events it causes.  Then, further down,
    step by step as the source runs it, where each step may raise and end
    the pass; that is what [main] runs.  The lemmas [*_io_refines] relate
    the two. *)

(** Lines 173-176: new files get the sentinel [0] and a notice. *)
Fixpoint scan_new_files(repo_path : string) (current_go_files : list string)
    (file_mtimes : gmap string Z) : gmap string Z * list event :=
  match current_go_files with
  | [] => (file_mtimes, [])
  | f :: rest =>
      let '(file_mtimes, printed) :=
        match file_mtimes !! f with
        | None =>
            (<[f := 0]> file_mtimes,
             [Print ("📝 New file detected: " +:+ relpath f repo_path)])
        | Some _ => (file_mtimes, [])
        end in
      let '(file_mtimes, later) := scan_new_files repo_path rest file_mtimes in
      (file_mtimes, printed ++ later)
  end.

(** Lines 180-191: one pass of the body of the modification loop, for one
    path and the answer of its [getmtime]. *)
Definition check_file (repo_path : string) (file_mtimes : gmap string Z)
    (file_path : string) (read : option Z) : gmap string Z * list event :=
  match read with
  | None => (file_mtimes, [])
  | Some current_mtime =>
      let last_mtime := default 0 (file_mtimes !! file_path) in
      if current_mtime >? last_mtime then
        let file_mtimes := <[file_path := current_mtime]> file_mtimes in
        if last_mtime >? 0 then
          (file_mtimes,
           [ Sleep 500;
             Print ("📝 Changed: " +:+ relpath file_path repo_path);
             CommitChanges file_path repo_path ])
        else (file_mtimes, [])
      else (file_mtimes, [])
  end.

(** Lines 179-191: the modification loop over the scanned paths. *)
Fixpoint check_files (repo_path : string) (reads : list (string * option Z))
    (file_mtimes : gmap string Z) : gmap string Z * list event :=
  match reads with
  | [] => (file_mtimes, [])
  | (file_path, read) :: rest =>
      let '(file_mtimes, now) := check_file repo_path file_mtimes file_path read in
      let '(file_mtimes, later) := check_files repo_path rest file_mtimes in
      (file_mtimes, now ++ later)
  end.

(** Lines 167-191: one poll cycle, given the scanned paths with the answer
    of each [getmtime]. *)
Definition poll_cycle (repo_path : string) (reads : list (string * option Z))
    (file_mtimes : gmap string Z) : gmap string Z * list event :=
  let current_go_files := reads.*1 in
  let '(file_mtimes, noticed) :=
    scan_new_files repo_path current_go_files file_mtimes in
  let '(file_mtimes, changed) := check_files repo_path reads file_mtimes in
  (file_mtimes, Sleep 1000 :: noticed ++ changed).

(** What the outside world shows one poll cycle: the tree at its re-scan,
    the answers of its [getmtime] calls, and the answers to its other
    steps (prints, sleeps, the walk of the re-scan, the sub-processes of
    the Committer). *)
Record cycle : Type := {
  cycle_fs : node;
  cycle_getmtime : nat -> option Z;
  cycle_env : environment
}.

(** The loop, for the cycles that complete before the operator interrupts
    it. *)
Fixpoint watch_loop (repo_path : list string) (cycles : list cycle)
    (file_mtimes : gmap string Z) : gmap string Z * list event :=
  match cycles with
  | [] => (file_mtimes, [])
  | c :: rest =>
      let current_go_files := get_go_files (cycle_fs c) repo_path in
      let '(file_mtimes, now) :=
        poll_cycle (str_path repo_path)
          (observe (cycle_getmtime c) current_go_files) file_mtimes in
      let '(file_mtimes, later) := watch_loop repo_path rest file_mtimes in
      (file_mtimes, now ++ later)
  end.

(** The steps of the loop as the source runs them: each may raise. *)

(** [get_go_files(repo_path)] as a step: the walk of the tree may raise. *)
Definition get_go_files_io (env : environment) (fs : node)
    (repo_path : list string) : M (list string) :=
  match scan_raises env with
  | Some r => ([], Raise r)
  | None => ([], Ok (get_go_files fs repo_path))
  end.

(** The call [commit_changes(file_path, repo_path)] seen from the loop:
    one event, and the way the call ends (its return value is not used). *)
Definition call_commit_changes (env : environment)
    (file_path repo_path : string) : M bool :=
  ([CommitChanges file_path repo_path],
   (commit_changes env file_path repo_path).2).

(** Lines 173-176 with their print: the notice comes before the
    assignment, and nothing catches what it raises. *)
Fixpoint scan_new_files_io (env : environment) (repo_path : string)
    (current_go_files : list string) (file_mtimes : gmap string Z)
  : M (gmap string Z) :=
  match current_go_files with
  | [] => ret file_mtimes
  | f :: rest =>
      file_mtimes <-
        match file_mtimes !! f with
        | None =>
            _ <- print env ("📝 New file detected: " +:+ relpath f repo_path) ;;
            ret (<[f := 0]> file_mtimes)
        | Some _ => ret file_mtimes
        end ;;
      scan_new_files_io env repo_path rest file_mtimes
  end.

(** [try: body  except OSError: pass], for a body that leaves the mapping
    as [file_mtimes] whether or not it raises. *)
Definition pass_on_OSError (body : M unit) (file_mtimes : gmap string Z)
  : M (gmap string Z) :=
  match body with
  | (evs, Ok _) => (evs, Ok file_mtimes)
  | (evs, Raise (Exc e)) =>
      if is_OSError e then (evs, Ok file_mtimes) else (evs, Raise (Exc e))
  | (evs, Raise r) => (evs, Raise r)
  end.

(** Lines 180-191 for one path: the [try] covers the settle delay, the
    notice and the call of the Committer, after the tracked value has been
    updated. *)
Definition check_file_io (env : environment) (repo_path : string)
    (file_mtimes : gmap string Z) (file_path : string) (read : option Z)
  : M (gmap string Z) :=
  match read with
  | None => ret file_mtimes
  | Some current_mtime =>
      let last_mtime := default 0 (file_mtimes !! file_path) in
      if current_mtime >? last_mtime then
        let file_mtimes := <[file_path := current_mtime]> file_mtimes in
        if last_mtime >? 0 then
          pass_on_OSError
            (_ <- sleep env 500 ;;
             _ <- print env ("📝 Changed: " +:+ relpath file_path repo_path) ;;
             _ <- call_commit_changes env file_path repo_path ;;
             ret tt)
            file_mtimes
        else ret file_mtimes
      else ret file_mtimes
  end.

Fixpoint check_files_io (env : environment) (repo_path : string)
    (reads : list (string * option Z)) (file_mtimes : gmap string Z)
  : M (gmap string Z) :=
  match reads with
  | [] => ret file_mtimes
  | (file_path, read) :: rest =>
      file_mtimes <- check_file_io env repo_path file_mtimes file_path read ;;
      check_files_io env repo_path rest file_mtimes
  end.

(** Lines 167-191: one pass of the body of [while True]. *)
Definition poll_cycle_io (c : cycle) (repo_path : list string)
    (file_mtimes : gmap string Z) : M (gmap string Z) :=
  let env := cycle_env c in
  _ <- sleep env 1000 ;;
  current_go_files <- get_go_files_io env (cycle_fs c) repo_path ;;
  file_mtimes <-
    scan_new_files_io env (str_path repo_path) current_go_files file_mtimes ;;
  check_files_io env (str_path repo_path)
    (observe (cycle_getmtime c) current_go_files) file_mtimes.

(** Lines 166-191: [while True] never returns; it is left by what a step
    raises.  When every listed cycle completes, the operator's interrupt
    arrives during the sleep that follows. *)
Fixpoint watch_loop_io (repo_path : list string) (cycles : list cycle)
    (file_mtimes : gmap string Z) : list event * raised :=
  match cycles with
  | [] => ([Sleep 1000], KeyboardInterrupt)
  | c :: rest =>
      match poll_cycle_io c repo_path file_mtimes with
      | (now, Ok file_mtimes) =>
          let '(later, r) := watch_loop_io repo_path rest file_mtimes in
          (now ++ later, r)
      | (now, Raise r) => (now, r)
      end
  end.

(** What one run of the program meets: the working directory, the
    absolute form of the optional argument, the tree and the [getmtime]
    answers at start-up, the poll cycles, and the answers to the steps of
    start-up and to the stop notice. *)
Record world : Type := {
  cwd : list string;
  argv1 : option (list string);
  fs : node;
  getmtime : nat -> option Z;
  cycles : list cycle;
  startup_env : environment
}.

(** Lines 129-136: the repository path. *)
Definition resolve_repo_path (w : world) : list string :=
  match argv1 w with
  | None => cwd w
  | Some arg_path =>
      if isfile (fs w) arg_path then dirname arg_path else arg_path
  end.

(** Lines 150-155: the lines of the start-up banner. *)
Definition banner_lines (repo_path : string) (go_files : list string)
  : list string :=
  [ "🔍 Watching all Go files in: " +:+ repo_path;
    "📦 Repository: https://github.com/Geltrax69/Learning_GO.git";
    "📄 Files tracked: " +:+ PyStr.str_of_nat (length go_files) ]
  ++ map (fun f => "   - " +:+ relpath f repo_path) go_files
  ++ [ "Auto-commit enabled - Press Ctrl+C to stop" +:+ PyStr.newline ].

(** One [print] per line, as long as none raises. *)
Fixpoint print_lines (env : environment) (lines : list string) : M unit :=
  match lines with
  | [] => ret tt
  | line :: rest => _ <- print env line ;; print_lines env rest
  end.

(** How the process ends: [sys.exit(code)], or something raised that
    nothing in the program catches. *)
Inductive ending : Type :=
  | Exit (code : Z)
  | Uncaught (r : raised).

(** The exit status the parent process sees: the code of [sys.exit]; 1
    after the traceback of an uncaught exception; none for an uncaught
    [KeyboardInterrupt], where the interpreter ends through the signal. *)
Definition status (e : ending) : option Z :=
  match e with
  | Exit code => Some code
  | Uncaught (Exc _) => Some 1
  | Uncaught KeyboardInterrupt => None
  end.

(** [steps; sys.exit(code)]. *)
Definition exit_after (steps : M unit) (code : Z) : list event * ending :=
  match steps with
  | (evs, Ok _) => (evs, Exit code)
  | (evs, Raise r) => (evs, Uncaught r)
  end.

(** [main()]: the events of the run and the way the process ends. *)
Definition main (w : world) : list event * ending :=
  let env := startup_env w in
  let repo_path := resolve_repo_path w in
  if negb (exists_path (fs w) (repo_path ++ [".git"])) then
    exit_after
      (print env ("Error: Not a git repository - " +:+ str_path repo_path)) 1
  else
    match get_go_files_io env (fs w) repo_path with
    | (_, Raise r) => ([], Uncaught r)
    | (_, Ok []) =>
        exit_after
          (print env ("No Go files found in " +:+ str_path repo_path)) 1
    | (_, Ok go_files) =>
        match print_lines env (banner_lines (str_path repo_path) go_files) with
        | (printed, Raise r) => (printed, Uncaught r)
        | (printed, Ok _) =>
            let file_mtimes :=
              track_initial (observe (getmtime w) go_files) ∅ in
            match watch_loop_io repo_path (cycles w) file_mtimes with
            | (polled, KeyboardInterrupt) =>
                let '(stopped, e) :=
                  exit_after
                    (print env (PyStr.newline +:+ "✓ Watcher stopped")) 0 in
                (printed ++ polled ++ stopped, e)
            | (polled, Exc e) => (printed ++ polled, Uncaught (Exc e))
            end
        end
    end.

(** ** Vocabulary of the specification and sample inputs *)

(** The number of lines of a text, as the specification words it: every
    line ends at a newline or at the end of the text, and a text that ends
    with a newline has no further, empty line after it (what
    [str.splitlines] and [wc -l] count for newline-terminated text). *)
Fixpoint text_lines (content : string) : nat :=
  match content with
  | EmptyString => 0%nat
  | String c rest =>
      if Ascii.eqb c PyStr.chr10 then S (text_lines rest)
      else match rest with
           | EmptyString => 1%nat
           | String _ _ => text_lines rest
           end
  end.

(** The commit step of a call succeeds: the call runs [git commit] and
    the command exits with 0. *)
Definition commit_step_succeeds (env : environment)
    (file_path repo_path : string) : Prop :=
  ∃ msg,
    Run ["git"; "commit"; "-m"; msg; author] repo_path None
      ∈ (commit_changes env file_path repo_path).1
    ∧ subprocess_returns env ["git"; "commit"; "-m"; msg; author] repo_path
      = Ok 0.

(** An event is a step that the environment answers with the
    exception [e]. *)
Definition raises (env : environment) (ev : event) (e : exn) : Prop :=
  match ev with
  | Run cmd cwd _ => subprocess_returns env cmd cwd = Raise (Exc e)
  | OpenRead path => file_text env path = Raise (Exc e)
  | Print line => console env line = Raise (Exc e)
  | _ => False
  end.

(** The git sub-command of a command line. *)
Definition subcommand (cmd : list string) : string :=
  match cmd with
  | _ :: sub :: _ => sub
  | _ => EmptyString
  end.

(** A one-line Go file, newline-terminated as [gofmt] leaves it. *)
Definition one_line_file : string := "package main" +:+ PyStr.newline.

(** An environment where the file has staged differences, every git
    command succeeds, and the push answers [push]. *)
Definition env_with_push (push : result Z) : environment :=
  {| subprocess_returns cmd _ :=
       if String.eqb (subcommand cmd) "diff" then Ok 1
       else if String.eqb (subcommand cmd) "push" then push
       else Ok 0;
     file_text _ := Ok one_line_file;
     console _ := Ok tt;
     sleep_interrupted _ := false;
     scan_raises := None |}.

(** The same with a staging step that runs into its 5 s timeout. *)
Definition env_add_times_out : environment :=
  {| subprocess_returns cmd _ :=
       if String.eqb (subcommand cmd) "add"
       then Raise (Exc (TimeoutExpired "git add timed out after 5 seconds"))
       else Ok 0;
     file_text _ := Ok one_line_file;
     console _ := Ok tt;
     sleep_interrupted _ := false;
     scan_raises := None |}.

(** The same on a console that has been closed: every [print] raises. *)
Definition env_add_times_out_console_closed : environment :=
  {| subprocess_returns := subprocess_returns env_add_times_out;
     file_text := file_text env_add_times_out;
     console _ := Raise (Exc (OSError "[Errno 9] Bad file descriptor"));
     sleep_interrupted _ := false;
     scan_raises := None |}.

(** The tracked mapping only grows from [before] to [after]: every key
    stays, and its timestamp does not decrease. *)
Definition mtimes_le (before after : gmap string Z) : Prop :=
  ∀ f t, before !! f = Some t → ∃ t', after !! f = Some t' ∧ t ≤ t'.

(** A path is inside a version-controlled directory, in the words of the
    specification: the directory itself or one of its ancestors holds a
    [.git] entry (what [git rev-parse --is-inside-work-tree] answers). *)
Definition inside_version_control (fs : node) (path : list string) : bool :=
  existsb (fun k => exists_path fs (take k path ++ [".git"]))
          (seq 0 (S (length path))).

(** A repository with a Go file at its top and one in a package
    directory. *)
Definition sample_tree : node :=
  Dir [ ("repo",
         Dir [ (".git", Dir []);
               ("main.go", File);
               ("pkg", Dir [ ("util.go", File); ("README.md", File) ]) ]) ].

(** A run started in the package directory of that repository, and one
    started at its top; the operator interrupts the first poll cycle. *)
Definition world_in_subdirectory : world :=
  {| cwd := ["repo"; "pkg"]; argv1 := None; fs := sample_tree;
     getmtime := fun _ => Some 100; cycles := [];
     startup_env := env_with_push (Ok 0) |}.

Definition world_at_top : world :=
  {| cwd := ["repo"]; argv1 := None; fs := sample_tree;
     getmtime := fun _ => Some 100; cycles := [];
     startup_env := env_with_push (Ok 0) |}.

(** True when every character of a line is ASCII. *)
Fixpoint is_ascii (line : string) : bool :=
  match line with
  | EmptyString => true
  | String c rest => (Ascii.nat_of_ascii c <? 128)%nat && is_ascii rest
  end.

(** An environment whose console cannot encode anything but ASCII. *)
Definition env_ascii_console : environment :=
  {| subprocess_returns := subprocess_returns (env_with_push (Ok 0));
     file_text := file_text (env_with_push (Ok 0));
     console line :=
       if is_ascii line then Ok tt
       else Raise (Exc (UnicodeEncodeError "'ascii' codec can't encode character"));
     sleep_interrupted _ := false;
     scan_raises := None |}.

(** The run at the top of the sample repository on such a console. *)
Definition world_ascii_console : world :=
  {| cwd := ["repo"]; argv1 := None; fs := sample_tree;
     getmtime := fun _ => Some 100; cycles := [];
     startup_env := env_ascii_console |}.

(** The console of an environment never fails and its scans complete. *)
Definition healthy_env (env : environment) : Prop :=
  (∀ line, console env line = Ok tt) ∧ scan_raises env = None.

(** The same for a whole run. *)
Definition healthy (w : world) : Prop :=
  healthy_env (startup_env w)
  ∧ Forall (fun c => healthy_env (cycle_env c)) (cycles w).

(** A file with the extension, found directly in a directory or at any
    depth beneath it, in the words of the specification: [go_file_at n rel]
    when the components [rel] lead from the directory [n] down to a
    regular file whose name matches [*.go]. *)
Inductive go_file_at : node -> list string -> Prop :=
  | go_file_here entries name :
      In (name, File) entries ->
      fnmatch "*.go" name = true ->
      go_file_at (Dir entries) [name]
  | go_file_deeper entries name child rel :
      In (name, child) entries ->
      go_file_at child rel ->
      go_file_at (Dir entries) (name :: rel).

(** Induction on a tree, with the hypothesis for every entry of a
    directory. *)
Fixpoint node_tree_ind (P : node -> Prop) (HFile : P File)
    (HDir : forall entries, Forall (fun e => P e.2) entries -> P (Dir entries))
    (n : node) : P n :=
  match n with
  | File => HFile
  | Dir entries =>
      HDir entries
        ((fix all (es : list (string * node)) : Forall (fun e => P e.2) es :=
            match es with
            | [] => List.Forall_nil _
            | e :: es' =>
                List.Forall_cons _ e es' (node_tree_ind P HFile HDir e.2) (all es')
            end) entries)
  end.

(** An event is a step during which the operator's interrupt arrives. *)
Definition interrupts (env : environment) (ev : event) : Prop :=
  match ev with
  | Run cmd cwd _ => subprocess_returns env cmd cwd = Raise KeyboardInterrupt
  | OpenRead path => file_text env path = Raise KeyboardInterrupt
  | _ => False
  end.

(** An environment given by the exit codes of the staged-difference check
    and of the commit, and by the answer of the push; staging succeeds and
    the file is the one-line file. *)
Definition env_answers (diff_code commit_code : Z) (push : result Z)
  : environment :=
  {| subprocess_returns cmd _ :=
       if String.eqb (subcommand cmd) "diff" then Ok diff_code
       else if String.eqb (subcommand cmd) "commit" then Ok commit_code
       else if String.eqb (subcommand cmd) "push" then push
       else Ok 0;
     file_text _ := Ok one_line_file;
     console _ := Ok tt;
     sleep_interrupted _ := false;
     scan_raises := None |}.

(** A run started at the top of the sample repository in which both Go
    files, tracked at start-up with mtime 100, are read with mtime 200 in
    the one poll cycle that completes. *)
Definition world_with_change : world :=
  {| cwd := ["repo"]; argv1 := None; fs := sample_tree;
     getmtime := fun _ => Some 100;
     cycles := [ {| cycle_fs := sample_tree;
                    cycle_getmtime := fun _ => Some 200;
                    cycle_env := env_answers 1 0 (Ok 0) |} ];
     startup_env := env_answers 1 0 (Ok 0) |}.

(** * Properties *)

(** ** The Analyzer *)

Section Analyzer.

Lemma selected_snoc cs b label :
  selected (cs ++ [(b, label)]) = append_if b label (selected cs).
Proof.
  unfold selected, append_if.
  rewrite List.filter_app, fmap_app. simpl.
  destruct b; simpl; [reflexivity | apply app_nil_r].
Qed.

Lemma selected_rev rcs :
  selected (rev rcs)
  = fold_right (fun c acc => append_if c.1 c.2 acc) [] rcs.
Proof.
  induction rcs as [|[b label] rcs IH]; [reflexivity|].
  simpl. rewrite selected_snoc, IH. reflexivity.
Qed.

Lemma selected_sublist cs : selected cs `sublist_of` cs.*2.
Proof.
  unfold selected.
  induction cs as [|[[] label] cs IH]; simpl.
  - constructor.
  - by apply sublist_skip.
  - by apply sublist_cons.
Qed.

(** The chain of [if]s computes the labels of the checks that hold. *)
Lemma analyze_file_selected content file_name :
  analyze_file content file_name = selected (checks content).
Proof.
  rewrite <- (rev_involutive (checks content)), selected_rev.
  reflexivity.
Qed.

Lemma checks_labels content : (checks content).*2 = checklist.
Proof. reflexivity. Qed.

Lemma NoDup_checklist : NoDup checklist.
Proof. apply (bool_decide_unpack _). vm_compute. reflexivity. Qed.

Example analyze_file_sample :
  analyze_file
    ("package main" +:+ String PyStr.chr10
       ("import " +:+ PyStr.quoted "fmt" +:+ String PyStr.chr10
          "func main() { if err != nil { } }"))
    "main.go"
  = ["main package"; "functions"; "fmt"; "error handling"].
Proof. vm_compute. reflexivity. Qed.

(** C7: for every file text the label list of the Analyzer is a
    subsequence of the fixed checklist: it keeps the checklist order, has
    no duplicate label, and is never longer than the checklist. *)
Theorem analyze_file_sublist_of_checklist content file_name :
  analyze_file content file_name `sublist_of` checklist
  ∧ NoDup (analyze_file content file_name)
  ∧ (length (analyze_file content file_name) ≤ length checklist)%nat.
Proof.
  assert (Hsub : analyze_file content file_name `sublist_of` checklist).
  { rewrite analyze_file_selected, <- (checks_labels content).
    apply selected_sublist. }
  split; [exact Hsub|]. split.
  - eapply sublist_NoDup; [exact NoDup_checklist | exact Hsub].
  - by apply sublist_length.
Qed.

(** C10: the result of the Analyzer depends on the content alone; the
    file name it is given has no influence. *)
Theorem analyze_file_ignores_file_name content file_name1 file_name2 :
  analyze_file content file_name1 = analyze_file content file_name2.
Proof. reflexivity. Qed.

End Analyzer.

(** ** The Committer *)

Section Committer.

Variable env : environment.
Variables file_path repo_path : string.

(** Unfolds one call down to the answers of the environment. *)
Ltac run_commit_changes :=
  unfold commit_changes, commit_changes_body, try_except_Exception,
    subprocess_run, read_text, print, bind, ret; cbn [fst snd app].

(** Case analysis on the next answer of the environment. *)
Ltac answer :=
  match goal with
  | |- context [subprocess_returns ?e ?c ?d] =>
      destruct (subprocess_returns e c d) as [?|[?|]] eqn:?
  | |- context [file_text ?e ?p] =>
      destruct (file_text e p) as [?|[?|]] eqn:?
  | |- context [console ?e ?l] =>
      destruct (console e l) as [[]|[?|]] eqn:?
  | |- context [Z.eqb ?x 0] => destruct (Z.eqb_spec x 0)
  end; cbn [fst snd app negb].

(** Splits a membership in a concrete event list into its cases. *)
Ltac members H :=
  repeat (apply elem_of_cons in H as [H | H]);
  [ .. | apply elem_of_nil in H; destruct H ].

(** An exception raised by a step inside the [try] is followed by the
    error line of the handler, after which the call returns [False]. *)
Lemma commit_changes_logs_exception ev e :
  ev ∈ (commit_changes_body env file_path repo_path).1 →
  raises env ev e →
  (commit_changes env file_path repo_path).1
  = (commit_changes_body env file_path repo_path).1
    ++ [Print ("Error: " +:+ str_exn e)]
  ∧ (console env ("Error: " +:+ str_exn e) = Ok tt →
     (commit_changes env file_path repo_path).2 = Ok false).
Proof.
  run_commit_changes. repeat answer; intros Hin Hr; members Hin; subst ev;
    cbn [raises] in Hr; try contradiction; try congruence.
  all: match goal with
       | H1 : ?t = Raise (Exc ?a), H2 : ?t = Raise (Exc ?b) |- _ =>
           assert (a = b) by congruence; subst
       end.
  all: split; [reflexivity | intros Hprinted; congruence].
Qed.

(** The only exception that leaves the call is one raised by the print of
    the error line in the handler. *)
Lemma commit_changes_raise_inv e' :
  (commit_changes env file_path repo_path).2 = Raise (Exc e') →
  ∃ e,
    (commit_changes_body env file_path repo_path).2 = Raise (Exc e)
    ∧ console env ("Error: " +:+ str_exn e) = Raise (Exc e')
    ∧ last (commit_changes env file_path repo_path).1
      = Some (Print ("Error: " +:+ str_exn e)).
Proof.
  run_commit_changes. repeat answer; intros Hr; try discriminate Hr.
  all: injection Hr as <-; eexists; split; [reflexivity|];
    split; [eassumption | reflexivity].
Qed.

(** C4, as amended: every exception raised by a step of the stage /
    check / read / analyze / commit / push sequence (its status prints
    included) is caught inside [commit_changes], which prints the error
    line and, that line printed, returns [False]; the only exception that
    can leave the call is one raised by the print of that error line. *)
Theorem commit_changes_catches_exceptions_of_its_steps :
  (∀ ev e,
     ev ∈ (commit_changes_body env file_path repo_path).1 →
     raises env ev e →
     (commit_changes env file_path repo_path).1
     = (commit_changes_body env file_path repo_path).1
       ++ [Print ("Error: " +:+ str_exn e)]
     ∧ (console env ("Error: " +:+ str_exn e) = Ok tt →
        (commit_changes env file_path repo_path).2 = Ok false))
  ∧ (∀ e',
       (commit_changes env file_path repo_path).2 = Raise (Exc e') →
       ∃ e,
         (commit_changes_body env file_path repo_path).2 = Raise (Exc e)
         ∧ console env ("Error: " +:+ str_exn e) = Raise (Exc e')
         ∧ last (commit_changes env file_path repo_path).1
           = Some (Print ("Error: " +:+ str_exn e))).
Proof.
  split.
  - apply commit_changes_logs_exception.
  - apply commit_changes_raise_inv.
Qed.

(** When the file has staged differences and its text can be read, the
    commit the call attempts carries the message of lines 86-90. *)
Lemma commit_changes_commits_with_message content add_code diff_code :
  subprocess_returns env ["git"; "add"; basename file_path] repo_path
    = Ok add_code →
  subprocess_returns env ["git"; "diff"; "--cached"; "--quiet"] repo_path
    = Ok diff_code →
  diff_code ≠ 0 →
  file_text env file_path = Ok content →
  Run ["git"; "commit"; "-m";
       commit_message (basename file_path) content; author] repo_path None
    ∈ (commit_changes env file_path repo_path).1.
Proof.
  intros Hadd Hdiff Hne Hread. run_commit_changes.
  rewrite Hadd, Hdiff. cbn [fst snd app].
  destruct (Z.eqb_spec diff_code 0) as [|_]; [contradiction|].
  cbn [negb]. rewrite Hread. cbn [fst snd app].
  repeat answer; rewrite !elem_of_cons; auto 10.
Qed.

(** No staged differences: nothing is committed. *)
Lemma commit_changes_without_differences add_code :
  subprocess_returns env ["git"; "add"; basename file_path] repo_path
    = Ok add_code →
  subprocess_returns env ["git"; "diff"; "--cached"; "--quiet"] repo_path
    = Ok 0 →
  commit_changes env file_path repo_path
  = ([ Run ["git"; "add"; basename file_path] repo_path (Some 5);
       Run ["git"; "diff"; "--cached"; "--quiet"] repo_path (Some 5) ],
     Ok false).
Proof.
  intros Hadd Hdiff. run_commit_changes.
  rewrite Hadd, Hdiff. reflexivity.
Qed.

End Committer.

(** Finds a concrete event in a concrete trace. *)
Ltac find_event :=
  vm_compute;
  repeat first [apply list_elem_of_here | apply list_elem_of_further].

Lemma commit_step_succeeds_sample push :
  commit_step_succeeds (env_with_push push) "/repo/main.go" "/repo".
Proof.
  exists (commit_message "main.go" one_line_file).
  split; [destruct push as [[|code|code]|[e|]]; find_event | reflexivity].
Qed.

Lemma commit_success_push_timeout_returns_False :
  ¬ (∀ env file_path repo_path,
       commit_step_succeeds env file_path repo_path →
       (commit_changes env file_path repo_path).2 = Ok true).
Proof.
  intros H.
  specialize (H (env_with_push (Raise (Exc (TimeoutExpired "timed out"))))
                "/repo/main.go" "/repo" (commit_step_succeeds_sample _)).
  vm_compute in H. discriminate H.
Qed.

(** C3 at a push that runs into its 10 s timeout: the commit step has
    succeeded, the exception of the push lands in the handler of the call,
    and the call returns [False]; a push that ends with a non-zero exit
    code, on the same commit, returns [True]. *)
Theorem push_timeout_after_commit_returns_False :
  commit_step_succeeds
    (env_with_push (Raise (Exc (TimeoutExpired "timed out"))))
    "/repo/main.go" "/repo"
  ∧ commit_changes (env_with_push (Raise (Exc (TimeoutExpired "timed out"))))
      "/repo/main.go" "/repo"
    = ([ Run ["git"; "add"; "main.go"] "/repo" (Some 5);
         Run ["git"; "diff"; "--cached"; "--quiet"] "/repo" (Some 5);
         OpenRead "/repo/main.go";
         Run ["git"; "commit"; "-m"; "Update main: main package (2 lines)"; author]
           "/repo" None;
         Print "✓ Committed: Update main: main package (2 lines)";
         Run ["git"; "push"; "origin"; "main"] "/repo" (Some 10);
         Print "Error: timed out" ],
       Ok false)
  ∧ (commit_changes (env_with_push (Ok 1)) "/repo/main.go" "/repo").2 = Ok true.
Proof.
  split; [apply commit_step_succeeds_sample|].
  split; vm_compute; reflexivity.
Qed.

(** C4 as stated fails: the staging step runs into its timeout, the
    handler catches the exception, and the print of the error line raises
    on a closed console; that exception leaves the call. *)
Lemma error_print_failure_leaves_commit_changes :
  ¬ (∀ env file_path repo_path ev e,
       ev ∈ (commit_changes env file_path repo_path).1 →
       raises env ev e →
       (commit_changes env file_path repo_path).2 = Ok false
       ∧ ∀ e', (commit_changes env file_path repo_path).2 ≠ Raise (Exc e')).
Proof.
  intros H.
  destruct (H env_add_times_out_console_closed "/repo/main.go" "/repo"
              (Run ["git"; "add"; "main.go"] "/repo" (Some 5))
              (TimeoutExpired "git add timed out after 5 seconds"))
    as [Hfalse _].
  - find_event.
  - reflexivity.
  - vm_compute in Hfalse. discriminate Hfalse.
Qed.

Example commit_changes_console_closed :
  commit_changes env_add_times_out_console_closed "/repo/main.go" "/repo"
  = ([ Run ["git"; "add"; "main.go"] "/repo" (Some 5);
       Print "Error: git add timed out after 5 seconds" ],
     Raise (Exc (OSError "[Errno 9] Bad file descriptor"))).
Proof. vm_compute. reflexivity. Qed.

Lemma commit_changes_catches_exceptions_of_its_steps_witness :
  raises env_add_times_out (Run ["git"; "add"; "main.go"] "/repo" (Some 5))
    (TimeoutExpired "git add timed out after 5 seconds")
  ∧ console env_add_times_out
      ("Error: " +:+ str_exn (TimeoutExpired "git add timed out after 5 seconds"))
    = Ok tt
  ∧ (commit_changes env_add_times_out "/repo/main.go" "/repo").2 = Ok false.
Proof.
  assert (Hraises : raises env_add_times_out
                      (Run ["git"; "add"; "main.go"] "/repo" (Some 5))
                      (TimeoutExpired "git add timed out after 5 seconds"))
    by reflexivity.
  split; [exact Hraises|]. split; [reflexivity|].
  apply (proj1 (commit_changes_catches_exceptions_of_its_steps
                  env_add_times_out "/repo/main.go" "/repo")
           (Run ["git"; "add"; "main.go"] "/repo" (Some 5))
           (TimeoutExpired "git add timed out after 5 seconds")).
  - find_event.
  - exact Hraises.
  - reflexivity.
Defined.

(** ** The commit message *)

Section CommitMessage.

Lemma split_length content :
  length (PyStr.split PyStr.chr10 content)
  = S (PyStr.count_char PyStr.chr10 content).
Proof.
  induction content as [|c rest IH]; [reflexivity|].
  cbn [PyStr.split PyStr.count_char].
  destruct (Ascii.eqb c PyStr.chr10); cbn [length].
  - rewrite IH. reflexivity.
  - destruct (PyStr.split PyStr.chr10 rest); [discriminate IH|].
    exact IH.
Qed.

Lemma text_lines_newline_terminated body :
  text_lines (body +:+ PyStr.newline) = S (PyStr.count_char PyStr.chr10 body).
Proof.
  induction body as [|c rest IH]; [reflexivity|].
  change (String c rest +:+ PyStr.newline) with (String c (rest +:+ PyStr.newline)).
  cbn [text_lines PyStr.count_char].
  destruct (Ascii.eqb c PyStr.chr10).
  - rewrite IH. reflexivity.
  - transitivity (text_lines (rest +:+ PyStr.newline));
      [destruct rest; reflexivity | rewrite IH; reflexivity].
Qed.

Lemma count_char_newline_terminated body :
  PyStr.count_char PyStr.chr10 (body +:+ PyStr.newline)
  = S (PyStr.count_char PyStr.chr10 body).
Proof.
  induction body as [|c rest IH]; [reflexivity|].
  change (String c rest +:+ PyStr.newline) with (String c (rest +:+ PyStr.newline)).
  cbn [PyStr.count_char]. rewrite IH. lia.
Qed.

(** For a newline-terminated text the program counts one line more
    than the text has. *)
Lemma split_counts_one_more_than_text_lines body :
  length (PyStr.split PyStr.chr10 (body +:+ PyStr.newline))
  = S (text_lines (body +:+ PyStr.newline)).
Proof.
  rewrite split_length, count_char_newline_terminated,
    text_lines_newline_terminated.
  reflexivity.
Qed.

(** The two differ by at most that one line. *)
Lemma text_lines_bounds content :
  (text_lines content ≤ length (PyStr.split PyStr.chr10 content)
   ≤ S (text_lines content))%nat.
Proof.
  rewrite split_length.
  induction content as [|c rest IH]; [cbn; lia|].
  cbn [text_lines PyStr.count_char].
  destruct (Ascii.eqb c PyStr.chr10); [lia|].
  destruct rest; [cbn; lia | lia].
Qed.

(** The form of the message (lines 88-90). *)
Lemma commit_message_form file_name content :
  commit_message file_name content
  = "Update " +:+ (splitext file_name).1 +:+ ": "
    +:+ (if bool_decide (analyze_file content file_name = [])
         then "code update"
         else PyStr.join ", " (take 3 (analyze_file content file_name)))
    +:+ " (" +:+ PyStr.str_of_nat (S (PyStr.count_char PyStr.chr10 content))
    +:+ " lines)".
Proof.
  unfold commit_message. rewrite split_length.
  destruct (analyze_file content file_name); reflexivity.
Qed.

(** A text in which no check holds gets no label. *)
Lemma analyze_file_no_check content file_name :
  Forall (fun c => c.1 = false) (checks content) →
  analyze_file content file_name = [].
Proof.
  rewrite analyze_file_selected. unfold selected.
  induction 1 as [|[b label] cs Hb _ IH]; [reflexivity|].
  simpl in Hb. subst b. exact IH.
Qed.

End CommitMessage.

(** C5 at a newline-terminated one-line file: the commit the program makes
    says [(2 lines)], the file has one line. *)
Theorem commit_message_one_line_file :
  text_lines one_line_file = 1%nat
  ∧ commit_message (basename "/repo/main.go") one_line_file
    = "Update main: main package (2 lines)"
  ∧ Run ["git"; "commit"; "-m"; "Update main: main package (2 lines)"; author]
      "/repo" None
    ∈ (commit_changes (env_with_push (Ok 0)) "/repo/main.go" "/repo").1.
Proof.
  split; [reflexivity|]. split; [vm_compute; reflexivity|]. find_event.
Qed.

(** ** The Watch Loop *)

Section WatchLoop.

Variable repo_path : string.

Implicit Types (file_mtimes : gmap string Z) (f : string) (t : Z).
Implicit Types (reads : list (string * option Z)).

Lemma mtimes_le_refl file_mtimes : mtimes_le file_mtimes file_mtimes.
Proof. intros f t Ht. exists t. split; [exact Ht | lia]. Qed.

Lemma mtimes_le_trans m1 m2 m3 :
  mtimes_le m1 m2 → mtimes_le m2 m3 → mtimes_le m1 m3.
Proof.
  intros H12 H23 f t Ht.
  destruct (H12 f t Ht) as (t2 & Ht2 & Hle2).
  destruct (H23 f t2 Ht2) as (t3 & Ht3 & Hle3).
  exists t3. split; [exact Ht3 | lia].
Qed.

(** *** The scan for new files *)

Lemma scan_new_files_old files file_mtimes f t :
  file_mtimes !! f = Some t →
  (scan_new_files repo_path files file_mtimes).1 !! f = Some t.
Proof.
  revert file_mtimes. induction files as [|f0 files IH]; intros m Ht.
  - exact Ht.
  - cbn [scan_new_files].
    destruct (m !! f0) as [t0|] eqn:E0.
    + specialize (IH m Ht).
      destruct (scan_new_files repo_path files m). exact IH.
    + assert (Hne : f0 ≠ f) by congruence.
      specialize (IH (<[f0:=0]> m)).
      rewrite lookup_insert_ne in IH by exact Hne. specialize (IH Ht).
      destruct (scan_new_files repo_path files _). exact IH.
Qed.

Lemma scan_new_files_new files file_mtimes f :
  file_mtimes !! f = None →
  f ∈ files →
  (scan_new_files repo_path files file_mtimes).1 !! f = Some 0
  ∧ Print ("📝 New file detected: " +:+ relpath f repo_path)
    ∈ (scan_new_files repo_path files file_mtimes).2.
Proof.
  revert file_mtimes. induction files as [|f0 files IH]; intros m Hnone Hin.
  - apply elem_of_nil in Hin. destruct Hin.
  - cbn [scan_new_files].
    destruct (decide (f0 = f)) as [->|Hne].
    + rewrite Hnone.
      pose proof (scan_new_files_old files (<[f:=0]> m) f 0
                    (lookup_insert_eq _ _ _)) as Hold.
      destruct (scan_new_files repo_path files _). cbn [fst snd] in *.
      split; [exact Hold | apply list_elem_of_here].
    + apply elem_of_cons in Hin as [Heq|Hin]; [congruence|].
      destruct (m !! f0) as [t0|] eqn:E0.
      * specialize (IH m Hnone Hin).
        destruct (scan_new_files repo_path files m). exact IH.
      * specialize (IH (<[f0:=0]> m)).
        rewrite lookup_insert_ne in IH by exact Hne.
        specialize (IH Hnone Hin).
        destruct (scan_new_files repo_path files _). cbn [fst snd] in *.
        split; [apply IH | apply list_elem_of_further, IH].
Qed.

Lemma scan_new_files_prints files file_mtimes ev :
  ev ∈ (scan_new_files repo_path files file_mtimes).2 →
  ∃ line, ev = Print line.
Proof.
  revert file_mtimes. induction files as [|f0 files IH]; intros m.
  - intros Hin. apply elem_of_nil in Hin. destruct Hin.
  - cbn [scan_new_files].
    destruct (m !! f0) as [t0|].
    + specialize (IH m). destruct (scan_new_files repo_path files m). exact IH.
    + specialize (IH (<[f0:=0]> m)).
      destruct (scan_new_files repo_path files _). cbn [fst snd app] in *.
      intros [->|Hin]%elem_of_cons; [eauto | auto].
Qed.

Lemma scan_new_files_mtimes_le files file_mtimes :
  mtimes_le file_mtimes (scan_new_files repo_path files file_mtimes).1.
Proof.
  intros f t Ht. exists t.
  split; [by apply scan_new_files_old | lia].
Qed.

(** *** The modification check *)

Lemma check_file_mtimes_le file_mtimes f read :
  mtimes_le file_mtimes (check_file repo_path file_mtimes f read).1.
Proof.
  unfold check_file. destruct read as [mtime|]; [|apply mtimes_le_refl].
  destruct (Z.gtb_spec mtime (default 0 (file_mtimes !! f))) as [Hgt|_].
  - assert (Hle : mtimes_le file_mtimes (<[f:=mtime]> file_mtimes)).
    { intros g t Ht. destruct (decide (f = g)) as [->|Hne].
      - exists mtime. rewrite lookup_insert_eq. rewrite Ht in Hgt.
        cbn in Hgt. split; [reflexivity | lia].
      - exists t. rewrite lookup_insert_ne by exact Hne.
        split; [exact Ht | lia]. }
    destruct (_ >? 0); exact Hle.
  - apply mtimes_le_refl.
Qed.

(** A pass for one path leaves the other paths alone. *)
Lemma check_file_other file_mtimes f g read :
  f ≠ g →
  (check_file repo_path file_mtimes f read).1 !! g = file_mtimes !! g
  ∧ ∀ rp, CommitChanges g rp ∉ (check_file repo_path file_mtimes f read).2.
Proof.
  intros Hne. unfold check_file.
  destruct read as [mtime|]; [|split; [reflexivity | intros rp; apply not_elem_of_nil]].
  destruct (_ >? _); [|split; [reflexivity | intros rp; apply not_elem_of_nil]].
  destruct (_ >? 0); cbn [fst snd]; rewrite lookup_insert_ne by exact Hne;
    (split; [reflexivity | intros rp Hin]).
  - repeat (apply elem_of_cons in Hin as [Hin|Hin]); try discriminate Hin.
    + injection Hin as -> _. congruence.
    + apply elem_of_nil in Hin. destruct Hin.
  - apply elem_of_nil in Hin. destruct Hin.
Qed.

(** A read that is not newer than the tracked value changes nothing. *)
Lemma check_file_quiet file_mtimes f t read :
  file_mtimes !! f = Some t →
  (∀ mtime, read = Some mtime → mtime ≤ t) →
  check_file repo_path file_mtimes f read = (file_mtimes, []).
Proof.
  intros Ht Hle. unfold check_file.
  destruct read as [mtime|]; [|reflexivity].
  rewrite Ht. cbn [default from_option id].
  destruct (Z.gtb_spec mtime t) as [Hgt|_]; [|reflexivity].
  specialize (Hle mtime eq_refl). lia.
Qed.


Lemma check_files_mtimes_le reads file_mtimes :
  mtimes_le file_mtimes (check_files repo_path reads file_mtimes).1.
Proof.
  revert file_mtimes. induction reads as [|[f read] reads IH]; intros m.
  - apply mtimes_le_refl.
  - cbn [check_files].
    pose proof (check_file_mtimes_le m f read) as Hstep.
    destruct (check_file repo_path m f read) as [m1 now].
    specialize (IH m1).
    destruct (check_files repo_path reads m1) as [m2 later].
    cbn [fst] in *. by eapply mtimes_le_trans.
Qed.

(** As long as every read of [f] is not newer than its tracked value,
    the loop neither changes that value nor commits [f]. *)
Lemma check_files_quiet reads file_mtimes f t :
  file_mtimes !! f = Some t →
  (∀ mtime, (f, Some mtime) ∈ reads → mtime ≤ t) →
  (check_files repo_path reads file_mtimes).1 !! f = Some t
  ∧ ∀ rp, CommitChanges f rp ∉ (check_files repo_path reads file_mtimes).2.
Proof.
  revert file_mtimes.
  induction reads as [|[g read] reads IH]; intros m Ht Hle.
  - split; [exact Ht | intros rp; apply not_elem_of_nil].
  - cbn [check_files].
    assert (Hstep : (check_file repo_path m g read).1 !! f = Some t
                    ∧ ∀ rp, CommitChanges f rp ∉ (check_file repo_path m g read).2).
    { destruct (decide (g = f)) as [->|Hne].
      - rewrite (check_file_quiet m f t read Ht).
        + split; [exact Ht | intros rp; apply not_elem_of_nil].
        + intros mtime ->. apply Hle, list_elem_of_here.
      - destruct (check_file_other m g f read Hne) as [Hl Hc].
        split; [by rewrite Hl | exact Hc]. }
    destruct (check_file repo_path m g read) as [m1 now].
    destruct Hstep as [Ht1 Hnow]. cbn [fst snd] in Ht1, Hnow.
    specialize (IH m1 Ht1).
    destruct (check_files repo_path reads m1) as [m2 later].
    cbn [fst snd] in *.
    destruct IH as [Ht2 Hlater].
    { intros mtime Hin. apply Hle, list_elem_of_further, Hin. }
    split; [exact Ht2|].
    intros rp [Hin|Hin]%elem_of_app; [by eapply Hnow | by eapply Hlater].
Qed.


(** *** One poll cycle *)

Lemma poll_cycle_unfold reads file_mtimes :
  poll_cycle repo_path reads file_mtimes
  = let scanned := scan_new_files repo_path reads.*1 file_mtimes in
    let checked := check_files repo_path reads scanned.1 in
    (checked.1, Sleep 1000 :: scanned.2 ++ checked.2).
Proof.
  unfold poll_cycle.
  destruct (scan_new_files repo_path reads.*1 file_mtimes) as [m1 noticed].
  cbn [fst snd]. by destruct (check_files repo_path reads m1).
Qed.

Lemma poll_cycle_mtimes_le reads file_mtimes :
  mtimes_le file_mtimes (poll_cycle repo_path reads file_mtimes).1.
Proof.
  rewrite poll_cycle_unfold. cbn [fst].
  eapply mtimes_le_trans;
    [apply scan_new_files_mtimes_le | apply check_files_mtimes_le].
Qed.

(** C8: when no mtime read for a tracked file in a poll cycle is greater
    than the value tracked from the cycle before, the cycle does not call
    the Committer for that file (and leaves the tracked value as it is). *)
Theorem unchanged_mtime_no_commit reads file_mtimes f t :
  file_mtimes !! f = Some t →
  (∀ mtime, (f, Some mtime) ∈ reads → mtime ≤ t) →
  (∀ rp, CommitChanges f rp ∉ (poll_cycle repo_path reads file_mtimes).2)
  ∧ (poll_cycle repo_path reads file_mtimes).1 !! f = Some t.
Proof.
  intros Ht Hle. rewrite poll_cycle_unfold. cbn [fst snd].
  pose proof (scan_new_files_old reads.*1 file_mtimes f t Ht) as Hscan.
  destruct (check_files_quiet reads _ f t Hscan Hle) as [Hkeep Hquiet].
  split; [|exact Hkeep].
  intros rp [Hin|[Hin|Hin]%elem_of_app]%elem_of_cons.
  - discriminate Hin.
  - apply scan_new_files_prints in Hin as [line Hin]. discriminate Hin.
  - by eapply Hquiet.
Qed.


End WatchLoop.

(** *** The loop as a whole *)

Lemma watch_loop_mtimes_le repo_path cycles file_mtimes :
  mtimes_le file_mtimes (watch_loop repo_path cycles file_mtimes).1.
Proof.
  revert file_mtimes. induction cycles as [|c cycles IH]; intros m.
  - apply mtimes_le_refl.
  - cbn [watch_loop].
    pose proof (poll_cycle_mtimes_le (str_path repo_path)
                  (observe (cycle_getmtime c) (get_go_files (cycle_fs c) repo_path))
                  m) as Hstep.
    destruct (poll_cycle _ _ m) as [m1 now].
    specialize (IH m1).
    destruct (watch_loop repo_path cycles m1) as [m2 later].
    cbn [fst] in *. by eapply mtimes_le_trans.
Qed.

Lemma mtimes_le_dom before after :
  mtimes_le before after →
  dom before ⊆ dom after
  ∧ ∀ f t t', before !! f = Some t → after !! f = Some t' → t ≤ t'.
Proof.
  intros Hle. split.
  - intros f [t Ht]%elem_of_dom.
    destruct (Hle f t Ht) as (t' & Ht' & _).
    apply elem_of_dom. by exists t'.
  - intros f t t' Ht Ht'.
    destruct (Hle f t Ht) as (t'' & Ht'' & Hle'). congruence.
Qed.

(** C9: every poll cycle, and so every run of the Watch Loop, only grows
    the tracked-file mapping: no key is ever removed, and the timestamp
    stored for a key never decreases. *)
Theorem file_mtimes_only_grows :
  (∀ repo_path reads (file_mtimes : gmap string Z),
     let after := (poll_cycle repo_path reads file_mtimes).1 in
     dom file_mtimes ⊆ dom after
     ∧ ∀ f t t', file_mtimes !! f = Some t → after !! f = Some t' → t ≤ t')
  ∧ (∀ repo_path cycles (file_mtimes : gmap string Z),
       let after := (watch_loop repo_path cycles file_mtimes).1 in
       dom file_mtimes ⊆ dom after
       ∧ ∀ f t t', file_mtimes !! f = Some t → after !! f = Some t' → t ≤ t').
Proof.
  split; intros; apply mtimes_le_dom.
  - apply poll_cycle_mtimes_le.
  - apply watch_loop_mtimes_le.
Qed.

(** ** The loop as the source runs it *)

Section WatchLoopRuns.

Variable env : environment.
Variable repo_path : string.

Implicit Types (file_mtimes : gmap string Z) (f : string).
Implicit Types (reads : list (string * option Z)).

(** What a run of the scan does is the beginning of what a completed scan
    does, and a scan that completes leaves the same mapping. *)
Lemma scan_new_files_io_refines files file_mtimes :
  (scan_new_files_io env repo_path files file_mtimes).1
    `sublist_of` (scan_new_files repo_path files file_mtimes).2
  ∧ ∀ m', (scan_new_files_io env repo_path files file_mtimes).2 = Ok m' →
          m' = (scan_new_files repo_path files file_mtimes).1.
Proof.
  revert file_mtimes. induction files as [|f files IH]; intros m.
  - split; [constructor | by intros m' [= <-]].
  - cbn [scan_new_files_io scan_new_files].
    destruct (m !! f) as [t|].
    + specialize (IH m). unfold bind, ret.
      destruct (scan_new_files_io env repo_path files m) as [evs r].
      destruct (scan_new_files repo_path files m) as [m1 later].
      exact IH.
    + specialize (IH (<[f:=0]> m)). unfold bind, ret, print.
      destruct (console env _) as [[]|r]; cbn [app fst snd].
      * destruct (scan_new_files_io env repo_path files _) as [evs r].
        destruct (scan_new_files repo_path files _) as [m1 later].
        cbn [fst snd app] in *. destruct IH as [Hsub Hok].
        split; [by apply sublist_skip | exact Hok].
      * destruct (scan_new_files repo_path files _) as [m1 later].
        cbn [fst snd app]. split; [|discriminate].
        apply sublist_skip, sublist_nil_l.
Qed.

Lemma scan_new_files_io_healthy files file_mtimes :
  (∀ line, console env line = Ok tt) →
  ∃ m', (scan_new_files_io env repo_path files file_mtimes).2 = Ok m'.
Proof.
  intros Hconsole. revert file_mtimes.
  induction files as [|f files IH]; intros m; [by exists m|].
  cbn [scan_new_files_io]. unfold bind, ret, print.
  destruct (m !! f) as [t|].
  - destruct (IH m) as [m' Hm'].
    destruct (scan_new_files_io env repo_path files m) as [evs r].
    by exists m'.
  - rewrite Hconsole. cbn [app].
    destruct (IH (<[f:=0]> m)) as [m' Hm'].
    destruct (scan_new_files_io env repo_path files _) as [evs r].
    by exists m'.
Qed.

Ltac run_check_file :=
  unfold check_file_io, check_file, pass_on_OSError, call_commit_changes,
    sleep, print, bind, ret.

(** The same for the check of one path; a notice that fails with an
    [OSError] only leaves the call of the Committer out. *)
Lemma check_file_io_refines file_mtimes f read :
  (check_file_io env repo_path file_mtimes f read).1
    `sublist_of` (check_file repo_path file_mtimes f read).2
  ∧ ∀ m', (check_file_io env repo_path file_mtimes f read).2 = Ok m' →
          m' = (check_file repo_path file_mtimes f read).1.
Proof.
  run_check_file.
  destruct read as [mtime|]; [|split; [constructor | by intros m' [= <-]]].
  destruct (_ >? _); [|split; [constructor | by intros m' [= <-]]].
  destruct (_ >? 0); [|split; [constructor | by intros m' [= <-]]].
  destruct (sleep_interrupted env 500); cbn [fst snd app].
  { split; [|discriminate]. apply sublist_skip, sublist_nil_l. }
  destruct (console env _) as [[]|[e|]]; cbn [fst snd app].
  - destruct ((commit_changes env f repo_path).2) as [b|[e|]];
      cbn [fst snd app]; try destruct (is_OSError e); cbn [fst snd];
      (split; [reflexivity | try discriminate; by intros m' [= <-]]).
  - destruct (is_OSError e); cbn [fst snd];
      (split; [| try discriminate; by intros m' [= <-]]);
      do 2 apply sublist_skip; apply sublist_nil_l.
  - split; [|discriminate]. do 2 apply sublist_skip. apply sublist_nil_l.
Qed.

(** On a console that does not fail the check of one path is only left
    by the operator's interrupt. *)
Lemma check_file_io_healthy file_mtimes f read e :
  (∀ line, console env line = Ok tt) →
  (check_file_io env repo_path file_mtimes f read).2 ≠ Raise (Exc e).
Proof.
  intros Hconsole. run_check_file.
  destruct read as [mtime|]; [|discriminate].
  destruct (_ >? _); [|discriminate].
  destruct (_ >? 0); [|discriminate].
  destruct (sleep_interrupted env 500); cbn [fst snd app]; [discriminate|].
  rewrite Hconsole. cbn [fst snd app].
  destruct ((commit_changes env f repo_path).2) as [b|[e0|]] eqn:Hcall;
    cbn [fst snd app]; try discriminate.
  apply commit_changes_raise_inv in Hcall as (e1 & _ & Hprint & _).
  rewrite Hconsole in Hprint. discriminate Hprint.
Qed.

Lemma check_files_io_refines reads file_mtimes :
  (check_files_io env repo_path reads file_mtimes).1
    `sublist_of` (check_files repo_path reads file_mtimes).2
  ∧ ∀ m', (check_files_io env repo_path reads file_mtimes).2 = Ok m' →
          m' = (check_files repo_path reads file_mtimes).1.
Proof.
  revert file_mtimes. induction reads as [|[f read] reads IH]; intros m.
  - split; [constructor | by intros m' [= <-]].
  - cbn [check_files_io check_files]. unfold bind.
    destruct (check_file_io_refines m f read) as [Hnow Hstate].
    destruct (check_file_io env repo_path m f read) as [now_io [m1|r]];
      destruct (check_file repo_path m f read) as [m1' now];
      cbn [fst snd] in *.
    + rewrite <- (Hstate m1 eq_refl). specialize (IH m1).
      destruct (check_files_io env repo_path reads m1) as [later_io r].
      destruct (check_files repo_path reads m1) as [m2 later].
      cbn [fst snd] in *. destruct IH as [Hlater Hok].
      split; [by apply sublist_app | exact Hok].
    + destruct (check_files repo_path reads m1') as [m2 later].
      cbn [fst snd]. split; [|discriminate].
      by apply sublist_inserts_r.
Qed.

Lemma check_files_io_healthy reads file_mtimes e :
  (∀ line, console env line = Ok tt) →
  (check_files_io env repo_path reads file_mtimes).2 ≠ Raise (Exc e).
Proof.
  intros Hconsole. revert file_mtimes.
  induction reads as [|[f read] reads IH]; intros m; [discriminate|].
  cbn [check_files_io]. unfold bind.
  pose proof (check_file_io_healthy m f read e Hconsole) as Hnow.
  destruct (check_file_io env repo_path m f read) as [now [m1|r]];
    cbn [snd] in *; [|exact Hnow].
  specialize (IH m1).
  destruct (check_files_io env repo_path reads m1) as [later r]. exact IH.
Qed.

End WatchLoopRuns.

(** One run of the body of the loop does a part of what a completed poll
    cycle does, and a run that completes leaves the same mapping. *)
Lemma poll_cycle_io_refines c repo_path (file_mtimes : gmap string Z) :
  (poll_cycle_io c repo_path file_mtimes).1
    `sublist_of`
    (poll_cycle (str_path repo_path)
       (observe (cycle_getmtime c) (get_go_files (cycle_fs c) repo_path))
       file_mtimes).2
  ∧ ∀ m', (poll_cycle_io c repo_path file_mtimes).2 = Ok m' →
          m' = (poll_cycle (str_path repo_path)
                  (observe (cycle_getmtime c)
                     (get_go_files (cycle_fs c) repo_path))
                  file_mtimes).1.
Proof.
  rewrite poll_cycle_unfold. cbn zeta. cbn [fst snd].
  unfold poll_cycle_io, get_go_files_io, sleep, bind.
  destruct (sleep_interrupted (cycle_env c) 1000); cbn [fst snd app].
  { split; [|discriminate]. apply sublist_skip, sublist_nil_l. }
  destruct (scan_raises (cycle_env c)) as [r|]; cbn [fst snd app].
  { split; [|discriminate]. apply sublist_skip, sublist_nil_l. }
  set (files := get_go_files (cycle_fs c) repo_path).
  assert (Hfiles : (observe (cycle_getmtime c) files).*1 = files).
  { unfold observe. generalize (cycle_getmtime c). clear.
    induction files as [|f files IH]; intros g; [reflexivity|].
    cbn [imap fmap list_fmap fst]. f_equal. apply IH. }
  rewrite Hfiles.
  destruct (scan_new_files_io_refines (cycle_env c) (str_path repo_path)
              files file_mtimes) as [Hscan Hstate].
  destruct (scan_new_files_io (cycle_env c) (str_path repo_path) files
              file_mtimes) as [noticed_io [m1|r]]; cbn [fst snd] in *.
  - rewrite <- (Hstate m1 eq_refl).
    destruct (check_files_io_refines (cycle_env c) (str_path repo_path)
                (observe (cycle_getmtime c) files) m1) as [Hcheck Hok].
    destruct (check_files_io (cycle_env c) (str_path repo_path) _ m1)
      as [changed_io r].
    cbn [fst snd] in *.
    split; [apply sublist_skip; by apply sublist_app | exact Hok].
  - split; [|discriminate].
    apply sublist_skip. by apply sublist_inserts_r.
Qed.

Lemma poll_cycle_io_healthy c repo_path (file_mtimes : gmap string Z) e :
  healthy_env (cycle_env c) →
  (poll_cycle_io c repo_path file_mtimes).2 ≠ Raise (Exc e).
Proof.
  intros [Hconsole Hscan].
  unfold poll_cycle_io, get_go_files_io, sleep, bind.
  destruct (sleep_interrupted (cycle_env c) 1000); cbn [fst snd app];
    [discriminate|].
  rewrite Hscan. cbn [fst snd app].
  destruct (scan_new_files_io_healthy (cycle_env c) (str_path repo_path)
              (get_go_files (cycle_fs c) repo_path) file_mtimes Hconsole)
    as [m1 Hm1].
  destruct (scan_new_files_io (cycle_env c) _ _ file_mtimes) as [noticed r].
  cbn [snd] in Hm1. subst r.
  pose proof (check_files_io_healthy (cycle_env c) (str_path repo_path)
                (observe (cycle_getmtime c)
                   (get_go_files (cycle_fs c) repo_path)) m1 e Hconsole)
    as Hcheck.
  destruct (check_files_io (cycle_env c) _ _ m1) as [changed r].
  exact Hcheck.
Qed.

(** What a run of the loop does is a part of what the completed cycles
    do, followed by the sleep in which the interrupt arrives. *)
Lemma watch_loop_io_refines repo_path cycles (file_mtimes : gmap string Z) :
  (watch_loop_io repo_path cycles file_mtimes).1
    `sublist_of` (watch_loop repo_path cycles file_mtimes).2 ++ [Sleep 1000].
Proof.
  revert file_mtimes. induction cycles as [|c cycles IH]; intros m.
  - reflexivity.
  - cbn [watch_loop_io watch_loop].
    destruct (poll_cycle_io_refines c repo_path m) as [Hnow Hstate].
    destruct (poll_cycle_io c repo_path m) as [now_io [m1|r]];
      destruct (poll_cycle _ _ m) as [m1' now]; cbn [fst snd] in *.
    + rewrite <- (Hstate m1 eq_refl). specialize (IH m1).
      destruct (watch_loop_io repo_path cycles m1) as [later_io r].
      destruct (watch_loop repo_path cycles m1) as [m2 later].
      cbn [fst snd] in *. rewrite <- app_assoc. by apply sublist_app.
    + destruct (watch_loop repo_path cycles m1') as [m2 later].
      cbn [fst snd]. rewrite <- app_assoc. by apply sublist_inserts_r.
Qed.

(** When no console fails and every scan completes, the loop is only left
    by the operator's interrupt. *)
Lemma watch_loop_io_healthy repo_path cycles (file_mtimes : gmap string Z) :
  Forall (fun c => healthy_env (cycle_env c)) cycles →
  (watch_loop_io repo_path cycles file_mtimes).2 = KeyboardInterrupt.
Proof.
  intros Hall. revert file_mtimes.
  induction Hall as [|c cycles Hc _ IH]; intros m; [reflexivity|].
  cbn [watch_loop_io].
  pose proof (poll_cycle_io_healthy c repo_path m) as Hnow.
  destruct (poll_cycle_io c repo_path m) as [now [m1|[e|]]]; cbn [snd] in *.
  - specialize (IH m1).
    destruct (watch_loop_io repo_path cycles m1) as [later r]. exact IH.
  - destruct (Hnow e Hc eq_refl).
  - reflexivity.
Qed.

Lemma print_lines_healthy env lines :
  (∀ line, console env line = Ok tt) →
  print_lines env lines = (map Print lines, Ok tt).
Proof.
  intros Hconsole. induction lines as [|line lines IH]; [reflexivity|].
  cbn [print_lines]. unfold bind, print. rewrite Hconsole, IH. reflexivity.
Qed.

Lemma print_lines_prints env lines ev :
  ev ∈ (print_lines env lines).1 → ∃ line, ev = Print line.
Proof.
  induction lines as [|line lines IH]; [by intros ?%elem_of_nil|].
  cbn [print_lines]. unfold bind, print.
  destruct (console env line) as [[]|r]; cbn [fst snd app].
  - destruct (print_lines env lines) as [evs r]. cbn [fst snd app] in *.
    intros [->|Hin]%elem_of_cons; eauto.
  - intros [->|Hin%elem_of_nil]%elem_of_cons; [eauto | destruct Hin].
Qed.

(** ** Start-up and exit codes *)

Lemma inside_version_control_here fs path :
  exists_path fs (path ++ [".git"]) = true →
  inside_version_control fs path = true.
Proof.
  intros Hgit. unfold inside_version_control.
  apply existsb_exists. exists (length path). split.
  - apply in_seq. lia.
  - by rewrite firstn_all.
Qed.

Example main_in_subdirectory :
  main world_in_subdirectory
  = ([Print "Error: Not a git repository - /repo/pkg"], Exit 1).
Proof. vm_compute. reflexivity. Qed.

(** On a console that cannot encode the banner the first [print] of line
    150 raises; nothing catches it, and the process ends with the
    interpreter's status 1 although the directory holds [.git] and Go
    files. *)
Example main_on_ascii_console :
  main world_ascii_console
  = ([Print "🔍 Watching all Go files in: /repo"],
     Uncaught
       (Exc (UnicodeEncodeError "'ascii' codec can't encode character")))
  ∧ status (main world_ascii_console).2 = Some 1
  ∧ exists_path (fs world_ascii_console)
      (resolve_repo_path world_ascii_console ++ [".git"]) = true
  ∧ get_go_files (fs world_ascii_console)
      (resolve_repo_path world_ascii_console) ≠ [].
Proof. vm_compute. repeat split; discriminate. Qed.

(** C2 as stated fails: started in a sub-directory of a repository that
    holds Go files, the process exits with code 1 although the path is
    inside a version-controlled directory. *)
Lemma exit_1_inside_version_control :
  ¬ (∀ w,
       status (main w).2 = Some 1
       ↔ inside_version_control (fs w) (resolve_repo_path w) = false
         ∨ get_go_files (fs w) (resolve_repo_path w) = []).
Proof.
  intros H. destruct (H world_in_subdirectory) as [Honly _].
  assert (Hexit : status (main world_in_subdirectory).2 = Some 1)
    by (vm_compute; reflexivity).
  destruct (Honly Hexit) as [Hout|Hnone];
    vm_compute in Hout || vm_compute in Hnone; discriminate.
Qed.

(** C2, as amended: [sys.exit(1)] is reached only when the resolved
    directory holds no [.git] entry of its own or no [.go] file is found
    under it, [sys.exit(0)] only after the operator has interrupted the
    Watch Loop and the stop notice has been printed, and no other code is
    passed to [sys.exit].  In a run where no [print] fails and every scan
    completes, the exit status is 1 exactly in the two start-up cases (so
    also for every path outside version control); otherwise the process
    watches until the operator interrupts it, prints the stop notice and
    exits with code 0. *)
Theorem main_exit_code w :
  let repo_path := resolve_repo_path w in
  let stopped := Print (PyStr.newline +:+ "✓ Watcher stopped") in
  ((main w).2 = Exit 1 →
   exists_path (fs w) (repo_path ++ [".git"]) = false
   ∨ get_go_files (fs w) repo_path = [])
  ∧ ((main w).2 = Exit 0 →
     exists_path (fs w) (repo_path ++ [".git"]) = true
     ∧ get_go_files (fs w) repo_path ≠ []
     ∧ last (main w).1 = Some stopped)
  ∧ (∀ code, (main w).2 = Exit code → code = 0 ∨ code = 1)
  ∧ (healthy w →
     (status (main w).2 = Some 1
      ↔ exists_path (fs w) (repo_path ++ [".git"]) = false
        ∨ get_go_files (fs w) repo_path = [])
     ∧ (inside_version_control (fs w) repo_path = false →
        status (main w).2 = Some 1)
     ∧ (status (main w).2 ≠ Some 1 →
        (main w).2 = Exit 0 ∧ last (main w).1 = Some stopped)).
Proof.
  intros repo_path stopped.
  assert (Hlast : ∀ printed polled : list event,
            last (printed ++ polled ++ [stopped]) = Some stopped)
    by (intros; by rewrite !app_assoc, last_snoc).
  split; [|split; [|split]].
  - unfold main, get_go_files_io, exit_after, print. fold repo_path.
    destruct (exists_path (fs w) (repo_path ++ [".git"])); cbn [negb]; auto.
    destruct (scan_raises (startup_env w)); [discriminate|].
    destruct (get_go_files (fs w) repo_path) as [|f go_files]; auto.
    destruct (print_lines _ _) as [printed [[]|r]]; [|discriminate].
    destruct (watch_loop_io _ _ _) as [polled [e|]]; [discriminate|].
    destruct (console _ _) as [[]|r]; discriminate.
  - unfold main, get_go_files_io, exit_after, print. fold repo_path.
    destruct (exists_path (fs w) (repo_path ++ [".git"])); cbn [negb].
    2: { destruct (console _ _) as [[]|r]; discriminate. }
    destruct (scan_raises (startup_env w)); [discriminate|].
    destruct (get_go_files (fs w) repo_path) as [|f go_files].
    { destruct (console _ _) as [[]|r]; discriminate. }
    destruct (print_lines _ _) as [printed [[]|r]]; [|discriminate].
    destruct (watch_loop_io _ _ _) as [polled [e|]]; [discriminate|].
    destruct (console _ _) as [[]|r]; [|discriminate].
    cbn [fst snd]. intros _. split; [reflexivity|]. split; [discriminate|].
    apply Hlast.
  - intros code. unfold main, get_go_files_io, exit_after, print.
    destruct (exists_path (fs w) _); cbn [negb].
    2: { destruct (console _ _) as [[]|r]; intros [= <-] || discriminate.
         by right. }
    destruct (scan_raises (startup_env w)); [discriminate|].
    destruct (get_go_files (fs w) _) as [|f go_files].
    { destruct (console _ _) as [[]|r]; intros [= <-] || discriminate.
      by right. }
    destruct (print_lines _ _) as [printed [[]|r]]; [|discriminate].
    destruct (watch_loop_io _ _ _) as [polled [e|]]; [discriminate|].
    destruct (console _ _) as [[]|r]; intros [= <-] || discriminate.
    by left.
  - intros [[Hconsole Hscan] Hcycles].
    assert (Hmain :
      (exists_path (fs w) (repo_path ++ [".git"]) = false
       ∨ get_go_files (fs w) repo_path = []) ∧ (main w).2 = Exit 1
      ∨ (exists_path (fs w) (repo_path ++ [".git"]) = true
         ∧ get_go_files (fs w) repo_path ≠ [])
        ∧ (main w).2 = Exit 0 ∧ last (main w).1 = Some stopped).
    { unfold main, get_go_files_io, exit_after, print. fold repo_path.
      destruct (exists_path (fs w) (repo_path ++ [".git"])); cbn [negb].
      2: { rewrite Hconsole. left. auto. }
      rewrite Hscan.
      destruct (get_go_files (fs w) repo_path) as [|f go_files].
      { rewrite Hconsole. left. auto. }
      rewrite (print_lines_healthy _ _ Hconsole).
      pose proof (watch_loop_io_healthy repo_path (cycles w)
                    (track_initial (observe (getmtime w) (f :: go_files)) ∅)
                    Hcycles) as Hloop.
      destruct (watch_loop_io _ _ _) as [polled r]. cbn [snd] in Hloop.
      subst r. rewrite Hconsole. cbn [fst snd]. right.
      split; [split; [reflexivity | discriminate]|].
      split; [reflexivity | apply Hlast]. }
    destruct Hmain as [[Hstart Hexit] | [[Hgit Hfiles] [Hexit Hstop]]];
      rewrite Hexit; cbn [status].
    + split; [tauto|]. split; [reflexivity | congruence].
    + split; [|split].
      * split; [discriminate|]. intros [Hno|Hno]; congruence.
      * intros Hout.
        rewrite (inside_version_control_here _ _ Hgit) in Hout.
        discriminate.
      * intros _. split; [reflexivity|]. by rewrite <- Hstop.
Qed.

Lemma main_exit_code_witness :
  healthy world_at_top
  ∧ status (main world_at_top).2 ≠ Some 1
  ∧ (main world_at_top).2 = Exit 0
  ∧ last (main world_at_top).1
    = Some (Print (PyStr.newline +:+ "✓ Watcher stopped")).
Proof.
  assert (Hhealthy : healthy world_at_top).
  { split; [split; [intros line|]; reflexivity | constructor]. }
  assert (Hrun : status (main world_at_top).2 ≠ Some 1)
    by (vm_compute; discriminate).
  split; [exact Hhealthy|]. split; [exact Hrun|].
  exact (proj2 (proj2 (proj2 (proj2 (proj2 (main_exit_code world_at_top)))
                         Hhealthy)) Hrun).
Defined.

(** ** The File Scanner *)

Section Scanner.

Example get_go_files_sample :
  get_go_files sample_tree ["repo"]
  = ["/repo/main.go"; "/repo/main.go"; "/repo/pkg/util.go"].
Proof. vm_compute. reflexivity. Qed.

Lemma glob_children_In pattern dir n path child :
  In (path, child) (glob_children pattern dir n)
  ↔ ∃ entries name,
      n = Dir entries ∧ In (name, child) entries
      ∧ fnmatch pattern name = true ∧ path = dir ++ [name].
Proof.
  unfold glob_children. destruct n as [|entries].
  - split; [intros [] | intros (es & name & Hn & _); discriminate Hn].
  - rewrite in_map_iff. split.
    + intros ([name c] & Heq & [Hin Hmatch]%filter_In).
      cbn [fst snd] in *. injection Heq as <- <-.
      by exists entries, name.
    + intros (es & name & Hn & Hin & Hmatch & ->). injection Hn as <-.
      exists (name, child). split; [reflexivity|].
      apply filter_In. by split.
Qed.

(** [**] followed by a pattern visits every directory entry by entry. *)
Lemma glob_recursive_Dir pattern dir entries :
  glob_recursive pattern dir (Dir entries)
  = glob_children pattern dir (Dir entries)
    ++ flat_map (fun e => glob_recursive pattern (dir ++ [e.1]) e.2) entries.
Proof.
  unfold glob_recursive at 1. cbn [iterate_directories flat_map].
  f_equal. induction entries as [|e entries IH]; [reflexivity|].
  cbn [flat_map]. rewrite flat_map_app, IH. reflexivity.
Qed.

(** What [**/*.go] yields are the matching files at any depth. *)
Lemma glob_recursive_go_file n : ∀ dir path,
  In (path, File) (glob_recursive "*.go" dir n)
  ↔ ∃ rel, go_file_at n rel ∧ path = dir ++ rel.
Proof.
  induction n as [|entries IH] using node_tree_ind; intros dir path.
  - split; [intros [] | intros (rel & Hat & _); inversion Hat].
  - rewrite glob_recursive_Dir, in_app_iff, glob_children_In, in_flat_map.
    rewrite Forall_forall in IH. split.
    + intros [(es & name & Hn & Hin & Hmatch & ->) | ([name child] & Hin & Hrec)].
      * injection Hn as <-. exists [name]. split; [|reflexivity].
        by apply go_file_here.
      * cbn [fst snd] in Hrec.
        apply (IH _ (proj2 (list_elem_of_In _ _) Hin)) in Hrec
          as (rel & Hat & ->).
        exists (name :: rel). split.
        -- by eapply go_file_deeper.
        -- by rewrite <- app_assoc.
    + intros (rel & Hat & ->). inversion Hat as [es name Hin Hmatch | es name child rel' Hin Hat']; subst.
      * left. by exists entries, name.
      * right. exists (name, child). split; [exact Hin|]. cbn [fst snd].
        apply (IH _ (proj2 (list_elem_of_In _ _) Hin)).
        exists rel'. split; [exact Hat'|]. by rewrite <- app_assoc.
Qed.

Lemma fnmatch_literal p pattern name :
  Ascii.eqb p "*" = false →
  fnmatch (String p pattern) name
  = match name with
    | EmptyString => false
    | String c name' => Ascii.eqb p c && fnmatch pattern name'
    end.
Proof.
  intros Hp. destruct name; cbn [fnmatch]; rewrite Hp; reflexivity.
Qed.

Lemma fnmatch_dot_go name : fnmatch ".go" name = true ↔ name = ".go".
Proof.
  split; [|intros ->; reflexivity].
  rewrite fnmatch_literal by reflexivity.
  destruct name as [|c1 name]; [discriminate|].
  intros [->%Ascii.eqb_eq H]%andb_true_iff. revert H.
  rewrite fnmatch_literal by reflexivity.
  destruct name as [|c2 name]; [discriminate|].
  intros [->%Ascii.eqb_eq H]%andb_true_iff. revert H.
  rewrite fnmatch_literal by reflexivity.
  destruct name as [|c3 name]; [discriminate|].
  intros [->%Ascii.eqb_eq H]%andb_true_iff.
  destruct name; [reflexivity | discriminate H].
Qed.

Lemma fnmatch_star_go_cons c name :
  fnmatch "*.go" (String c name)
  = fnmatch ".go" (String c name) || fnmatch "*.go" name.
Proof. reflexivity. Qed.

(** The fixed pattern selects the names that end in [.go]. *)
Lemma fnmatch_star_go name :
  fnmatch "*.go" name = true ↔ ∃ stem, name = stem +:+ ".go".
Proof.
  split.
  - induction name as [|c name IH]; [discriminate|].
    rewrite fnmatch_star_go_cons.
    intros [Hhere|Hlater]%orb_true_iff.
    + apply fnmatch_dot_go in Hhere. by exists EmptyString.
    + destruct (IH Hlater) as [stem ->]. by exists (String c stem).
  - intros [stem ->]. induction stem as [|c stem IH]; [reflexivity|].
    change (String c stem +:+ ".go") with (String c (stem +:+ ".go")).
    rewrite fnmatch_star_go_cons, IH. apply orb_true_r.
Qed.

Lemma get_go_files_unfold fs repo_path root :
  resolve fs repo_path = Some root →
  get_go_files fs repo_path
  = map (fun f => str_path f.1)
      (List.filter (fun f => is_file f.2)
         (glob_children "*.go" repo_path root
          ++ glob_recursive "*.go" repo_path root)).
Proof. intros Hroot. unfold get_go_files. rewrite Hroot. reflexivity. Qed.

(** The result holds the files of the root directory twice: once for
    [*.go] and once more for [**/*.go], which starts at the root too. *)
Lemma get_go_files_top_twice fs repo_path entries :
  resolve fs repo_path = Some (Dir entries) →
  let top :=
    map (fun f => str_path f.1)
      (List.filter (fun f => is_file f.2)
         (glob_children "*.go" repo_path (Dir entries))) in
  let beneath :=
    map (fun f => str_path f.1)
      (List.filter (fun f => is_file f.2)
         (flat_map (fun e => glob_recursive "*.go" (repo_path ++ [e.1]) e.2)
            entries)) in
  get_go_files fs repo_path = top ++ top ++ beneath.
Proof.
  intros Hroot top beneath.
  rewrite (get_go_files_unfold _ _ _ Hroot), glob_recursive_Dir.
  rewrite !List.filter_app, !map_app. reflexivity.
Qed.

(** Every path of the result is a [.go] file at some depth under the
    root, and every such file is in the result. *)
Lemma get_go_files_elem fs repo_path p :
  In p (get_go_files fs repo_path)
  ↔ ∃ root rel,
      resolve fs repo_path = Some root ∧ go_file_at root rel
      ∧ p = str_path (repo_path ++ rel).
Proof.
  destruct (resolve fs repo_path) as [root|] eqn:Hroot.
  - rewrite (get_go_files_unfold _ _ _ Hroot), in_map_iff. split.
    + intros ([path n] & <- & [Hin Hfile]%filter_In). cbn [fst snd] in *.
      destruct n; [|discriminate Hfile].
      exists root.
      apply in_app_iff in Hin as [Hin|Hin].
      * apply glob_children_In in Hin
          as (entries & name & -> & Hin & Hmatch & ->).
        exists [name]. split; [reflexivity|]. split; [|reflexivity].
        by apply go_file_here.
      * apply glob_recursive_go_file in Hin as (rel & Hat & ->).
        by exists rel.
    + intros (root' & rel & Heq & Hat & ->). injection Heq as <-.
      exists (repo_path ++ rel, File). split; [reflexivity|].
      apply filter_In. split; [|reflexivity].
      apply in_app_iff. right. apply glob_recursive_go_file. by exists rel.
  - unfold get_go_files. rewrite Hroot. split; [intros [] |].
    intros (root & rel & Heq & _). discriminate Heq.
Qed.

(** A [.go] file directly in the root makes the result hold its path
    more than once. *)
Lemma get_go_files_top_duplicate fs repo_path entries name :
  resolve fs repo_path = Some (Dir entries) →
  In (name, File) entries →
  fnmatch "*.go" name = true →
  ¬ NoDup (get_go_files fs repo_path).
Proof.
  intros Hroot Hin Hmatch.
  rewrite (get_go_files_top_twice _ _ _ Hroot). cbn zeta.
  intros [_ [Hdisjoint _]]%NoDup_app.
  assert (Htop : str_path (repo_path ++ [name])
                 ∈ map (fun f => str_path f.1)
                     (List.filter (fun f => is_file f.2)
                        (glob_children "*.go" repo_path (Dir entries)))).
  { apply list_elem_of_In, in_map_iff.
    exists (repo_path ++ [name], File). split; [reflexivity|].
    apply filter_In. split; [|reflexivity].
    apply glob_children_In. by exists entries, name. }
  apply (Hdisjoint _ Htop), elem_of_app. by left.
Qed.

End Scanner.

(** C1 at a repository with one Go file at its top and one in a package:
    both files are found, and the path of the top-level file occurs twice
    in the result. *)
Theorem get_go_files_repeats_top_level_file :
  get_go_files sample_tree ["repo"]
  = ["/repo/main.go"; "/repo/main.go"; "/repo/pkg/util.go"]
  ∧ ¬ NoDup (get_go_files sample_tree ["repo"]).
Proof.
  split; [vm_compute; reflexivity|].
  apply (get_go_files_top_duplicate sample_tree ["repo"]
           [ (".git", Dir []); ("main.go", File);
             ("pkg", Dir [ ("util.go", File); ("README.md", File) ]) ]
           "main.go").
  - reflexivity.
  - right. left. reflexivity.
  - reflexivity.
Qed.

(** ** Sample runs of the theorems *)

Lemma unchanged_mtime_no_commit_witness :
  ({[ "/repo/main.go" := 7 ]} : gmap string Z) !! "/repo/main.go" = Some 7
  ∧ (∀ mtime,
       ("/repo/main.go", Some mtime) ∈ [("/repo/main.go", Some 7)] → mtime ≤ 7)
  ∧ (∀ rp,
       CommitChanges "/repo/main.go" rp
       ∉ (poll_cycle "/repo" [("/repo/main.go", Some 7)]
            {[ "/repo/main.go" := 7 ]}).2)
  ∧ (poll_cycle "/repo" [("/repo/main.go", Some 7)]
       {[ "/repo/main.go" := 7 ]}).1 !! "/repo/main.go" = Some 7.
Proof.
  assert (Htracked :
            ({[ "/repo/main.go" := 7 ]} : gmap string Z) !! "/repo/main.go"
            = Some 7) by reflexivity.
  assert (Hreads : ∀ mtime,
            ("/repo/main.go", Some mtime) ∈ [("/repo/main.go", Some 7)]
            → mtime ≤ 7).
  { intros mtime Hin. apply list_elem_of_singleton in Hin.
    injection Hin as ->. lia. }
  split; [exact Htracked|]. split; [exact Hreads|].
  exact (unchanged_mtime_no_commit "/repo" _ _ _ _ Htracked Hreads).
Defined.


(** The run behind the second failure: discovery, a first read that only
    stores 5, and a second read that commits. *)
Example discovery_cycle_with_two_reads :
  poll_cycle "/repo" [("/repo/new.go", Some 5); ("/repo/new.go", Some 7)] ∅
  = ({[ "/repo/new.go" := 7 ]},
     [ Sleep 1000; Print "📝 New file detected: new.go"; Sleep 500;
       Print "📝 Changed: new.go"; CommitChanges "/repo/new.go" "/repo" ]).
Proof. vm_compute. reflexivity. Qed.


Lemma file_mtimes_only_grows_witness :
  let before : gmap string Z := {[ "/repo/main.go" := 7 ]} in
  let after := (poll_cycle "/repo" [("/repo/main.go", Some 9)] before).1 in
  before !! "/repo/main.go" = Some 7
  ∧ after !! "/repo/main.go" = Some 9
  ∧ 7 ≤ 9
  ∧ dom before ⊆ dom after.
Proof.
  intros before after.
  assert (Hbefore : before !! "/repo/main.go" = Some 7) by reflexivity.
  assert (Hafter : after !! "/repo/main.go" = Some 9) by reflexivity.
  destruct (proj1 file_mtimes_only_grows "/repo"
              [("/repo/main.go", Some 9)] before) as [Hdom Hle].
  split; [exact Hbefore|]. split; [exact Hafter|].
  split; [exact (Hle _ _ _ Hbefore Hafter) | exact Hdom].
Defined.

(** * Further properties of the code *)

(** ** Strings *)

Section StringFacts.

Lemma append_cons x (a b : string) : String x a +:+ b = String x (a +:+ b).
Proof. reflexivity. Qed.

Lemma append_assoc (a b c : string) : (a +:+ b) +:+ c = a +:+ (b +:+ c).
Proof.
  induction a as [|x a IH]; [reflexivity|]. by rewrite !append_cons, IH.
Qed.

Lemma append_nil_r (a : string) : a +:+ EmptyString = a.
Proof.
  induction a as [|x a IH]; [reflexivity|]. by rewrite append_cons, IH.
Qed.

Lemma length_append (a b : string) :
  String.length (a +:+ b) = (String.length a + String.length b)%nat.
Proof.
  induction a as [|x a IH]; [reflexivity|].
  rewrite append_cons. cbn [String.length]. by rewrite IH.
Qed.

Lemma prefix_iff needle content :
  String.prefix needle content = true ↔ ∃ post, content = needle +:+ post.
Proof.
  revert content. induction needle as [|x needle IH]; intros content.
  - split; [intros _; by exists content | by destruct content].
  - destruct content as [|y content]; cbn [String.prefix].
    + split; [discriminate | intros [post Hpost]; discriminate Hpost].
    + destruct (ascii_dec x y) as [->|Hne].
      * rewrite IH. split; intros [post Hpost]; exists post.
        -- by rewrite append_cons, Hpost.
        -- rewrite append_cons in Hpost. by injection Hpost.
      * split; [discriminate|]. intros [post Hpost].
        rewrite append_cons in Hpost.
        injection Hpost as Hxy _. by destruct Hne.
Qed.

Lemma contains_unfold needle content :
  PyStr.contains needle content
  = String.prefix needle content
    || match content with
       | EmptyString => false
       | String _ rest => PyStr.contains needle rest
       end.
Proof. destruct content; reflexivity. Qed.

(** [needle in content] holds exactly when the content is some text, the
    needle, and some more text. *)
Lemma contains_iff needle content :
  PyStr.contains needle content = true
  ↔ ∃ pre post, content = pre +:+ needle +:+ post.
Proof.
  split.
  - induction content as [|x content IH]; rewrite contains_unfold;
      intros [Hhere|Hlater]%orb_true_iff; try discriminate Hlater.
    + apply prefix_iff in Hhere as [post ->]. by exists EmptyString, post.
    + apply prefix_iff in Hhere as [post ->]. by exists EmptyString, post.
    + destruct (IH Hlater) as (pre & post & ->). by exists (String x pre), post.
  - intros (pre & post & ->). induction pre as [|x pre IH].
    + rewrite contains_unfold. apply orb_true_iff. left.
      apply prefix_iff. by exists post.
    + rewrite contains_unfold. apply orb_true_iff. right. exact IH.
Qed.

Lemma contains_app needle pre content post :
  PyStr.contains needle content = true →
  PyStr.contains needle (pre +:+ content +:+ post) = true.
Proof.
  intros (p & q & ->)%contains_iff. apply contains_iff.
  exists (pre +:+ p), (q +:+ post). by rewrite !append_assoc.
Qed.

Lemma contains_trans a b content :
  PyStr.contains a b = true →
  PyStr.contains b content = true →
  PyStr.contains a content = true.
Proof.
  intros (p & q & ->)%contains_iff (pre & post & ->)%contains_iff.
  by apply contains_app, contains_app, contains_iff; exists EmptyString, EmptyString;
    rewrite append_nil_r.
Qed.

End StringFacts.

(** ** More on the Analyzer *)

Section AnalyzerLabels.

Lemma elem_of_selected label cs :
  label ∈ selected cs ↔ (true, label) ∈ cs.
Proof.
  unfold selected. rewrite list_elem_of_fmap. split.
  - intros ([b l] & -> & [Hin Hb]%list_elem_of_In%filter_In).
    cbn in Hb. subst b. by apply list_elem_of_In.
  - intros Hin. exists (true, label). split; [reflexivity|].
    apply list_elem_of_In, filter_In. split; [by apply list_elem_of_In | reflexivity].
Qed.

(** A label is returned exactly when its check holds on the content. *)
Theorem analyze_file_label_iff content file_name label :
  label ∈ analyze_file content file_name ↔ (true, label) ∈ checks content.
Proof. rewrite analyze_file_selected. apply elem_of_selected. Qed.

(** Decides which entry of the checklist a label names. *)
Ltac pick_check H :=
  unfold checks in H; cbv zeta in H;
  repeat (apply elem_of_cons in H as [H | H];
          [ try (exfalso; injection H as _ H; discriminate H) |]);
  try (apply elem_of_nil in H; destruct H).

(** The tests for the needles 'go func' and 'make([]' never decide: a
    text that holds them also holds 'go ' and '[]', which give the same
    labels. *)
Theorem analyze_file_goroutines_slice content file_name :
  ("goroutines" ∈ analyze_file content file_name
   ↔ PyStr.contains "goroutine" content = true
     ∨ PyStr.contains "go " content = true)
  ∧ ("slice" ∈ analyze_file content file_name
     ↔ PyStr.contains "[]" content = true).
Proof.
  rewrite !analyze_file_selected, !elem_of_selected. split; split.
  - intros H. pick_check H. injection H as H.
    symmetry in H. apply orb_true_iff in H as [H|H]; [|by right].
    apply orb_true_iff in H as [H|H]; [by left | right].
    eapply contains_trans; [|exact H]. reflexivity.
  - intros H.
    assert (Hb : PyStr.contains "goroutine" content
                 || PyStr.contains "go func" content
                 || PyStr.contains "go " content = true).
    { destruct H as [-> | ->]; [reflexivity | apply orb_true_r]. }
    unfold checks. cbv zeta. rewrite Hb.
    do 5 apply list_elem_of_further. apply list_elem_of_here.
  - intros H. pick_check H. injection H as H.
    symmetry in H. apply orb_true_iff in H as [H|H]; [|exact H].
    eapply contains_trans; [|exact H]. reflexivity.
  - intros H.
    assert (Hb : PyStr.contains "make([]" content
                 || PyStr.contains "[]" content = true).
    { rewrite H. apply orb_true_r. }
    unfold checks. cbv zeta. rewrite Hb.
    do 15 apply list_elem_of_further. apply list_elem_of_here.
Qed.

Lemma orb_mono (a a' b b' : bool) :
  (a = true → a' = true) → (b = true → b' = true) →
  a || b = true → a' || b' = true.
Proof.
  intros Ha Hb [H|H]%orb_true_iff; apply orb_true_iff; auto.
Qed.

Lemma selected_mono cs cs' :
  Forall2 (fun c c' => c.2 = c'.2 ∧ (c.1 = true → c'.1 = true)) cs cs' →
  selected cs `sublist_of` selected cs'.
Proof.
  unfold selected.
  induction 1 as [|[b l] [b' l'] cs cs' [Hl Hb] _ IH]; [constructor|].
  cbn in Hl, Hb. subst l'. destruct b; cbn.
  - rewrite (Hb eq_refl). cbn. by apply sublist_skip.
  - destruct b'; cbn; [by apply sublist_cons | exact IH].
Qed.

(** Text around a file's content never removes a label: the labels of a
    text are among the labels of every text that contains it, in the same
    order. *)
Theorem analyze_file_monotone pre content post file_name :
  analyze_file content file_name
  `sublist_of` analyze_file (pre +:+ content +:+ post) file_name.
Proof.
  rewrite !analyze_file_selected. apply selected_mono.
  unfold checks. cbv zeta.
  repeat (apply List.Forall2_cons;
          [split; [reflexivity |
                   cbn [fst]; repeat apply orb_mono; apply contains_app] |]).
  apply List.Forall2_nil.
Qed.

(** No label at all exactly when no check holds; the message then reads
    code update. *)
Theorem analyze_file_nil_iff content file_name :
  (analyze_file content file_name = []
   ↔ Forall (fun c => c.1 = false) (checks content))
  ∧ (analyze_file content file_name = [] →
     commit_message file_name content
     = "Update " +:+ (splitext file_name).1 +:+ ": code update (" +:+
       PyStr.str_of_nat (S (PyStr.count_char PyStr.chr10 content))
       +:+ " lines)").
Proof.
  split.
  - rewrite analyze_file_selected. unfold selected.
    generalize (checks content). intros cs. split.
    + induction cs as [|[[] l] cs IH]; cbn; intros H.
      * constructor.
      * discriminate H.
      * constructor; [reflexivity | by apply IH].
    + induction 1 as [|[b l] cs Hb _ IH]; [reflexivity|].
      cbn in Hb. subst b. exact IH.
  - intros Hnil. rewrite commit_message_form, Hnil. reflexivity.
Qed.

End AnalyzerLabels.

Lemma analyze_file_nil_iff_witness :
  analyze_file EmptyString "main.go" = []
  ∧ commit_message "main.go" EmptyString = "Update main: code update (1 lines)".
Proof.
  assert (Hnil : analyze_file EmptyString "main.go" = []).
  { apply (proj1 (analyze_file_nil_iff EmptyString "main.go")).
    vm_compute. repeat constructor. }
  split; [exact Hnil|].
  rewrite (proj2 (analyze_file_nil_iff EmptyString "main.go") Hnil).
  vm_compute. reflexivity.
Defined.

(** ** More on the Committer *)

Section CommitterSteps.

Variable env : environment.
Variables file_path repo_path : string.

Ltac run_commit_changes :=
  unfold commit_changes, commit_changes_body, try_except_Exception,
    subprocess_run, read_text, print, bind, ret; cbn [fst snd app].

Ltac answer :=
  match goal with
  | |- context [subprocess_returns ?e ?c ?d] =>
      destruct (subprocess_returns e c d) as [?|[?|]] eqn:?
  | |- context [file_text ?e ?p] =>
      destruct (file_text e p) as [?|[?|]] eqn:?
  | |- context [console ?e ?l] =>
      destruct (console e l) as [[]|[?|]] eqn:?
  | |- context [Z.eqb ?x 0] => destruct (Z.eqb_spec x 0)
  end; cbn [fst snd app negb].

Ltac members H :=
  repeat (apply elem_of_cons in H as [H | H]);
  [ .. | apply elem_of_nil in H; destruct H ].

Ltac found := repeat first [apply list_elem_of_here | apply list_elem_of_further].

(** Without staged differences nothing is read, committed or pushed: the
    call runs the staging and the check, and returns [False] without a
    word. *)
Theorem no_staged_differences_no_commit add_code :
  subprocess_returns env ["git"; "add"; basename file_path] repo_path
    = Ok add_code →
  subprocess_returns env ["git"; "diff"; "--cached"; "--quiet"] repo_path
    = Ok 0 →
  commit_changes env file_path repo_path
  = ([ Run ["git"; "add"; basename file_path] repo_path (Some 5);
       Run ["git"; "diff"; "--cached"; "--quiet"] repo_path (Some 5) ],
     Ok false).
Proof. apply commit_changes_without_differences. Qed.

(** The call attempts a commit exactly when the staging step returned
    (with any exit code), the check reported differences and the file could
    be read; the commit then carries the message computed from the base
    name and the content, the fixed author, and no timeout. *)
Theorem commit_attempted_iff msg who timeout :
  Run ["git"; "commit"; "-m"; msg; who] repo_path timeout
    ∈ (commit_changes env file_path repo_path).1
  ↔ who = author ∧ timeout = None
    ∧ ∃ add_code diff_code content,
        subprocess_returns env ["git"; "add"; basename file_path] repo_path
          = Ok add_code
        ∧ subprocess_returns env ["git"; "diff"; "--cached"; "--quiet"]
            repo_path = Ok diff_code
        ∧ diff_code ≠ 0
        ∧ file_text env file_path = Ok content
        ∧ msg = commit_message (basename file_path) content.
Proof.
  run_commit_changes. repeat answer; split.
  all: try (intros (-> & -> & a' & d' & c' & Ha & Hd & Hne & Hc & ->);
            try discriminate; try congruence; injection Hc as <-; found).
  all: intros Hin; members Hin; try discriminate Hin.
  all: injection Hin as -> -> ->.
  all: split; [reflexivity|]; split; [reflexivity|].
  all: eexists _, _, _; repeat split; (reflexivity || assumption).
Qed.

(** The call returns [True] exactly when its commit step succeeded, the
    line that reports the commit was printed, the push command ran to its
    end and the line that reports the push was printed: it never reports a
    commit that was not made. *)
Theorem returns_True_iff :
  (commit_changes env file_path repo_path).2 = Ok true
  ↔ ∃ msg push_code,
      Run ["git"; "commit"; "-m"; msg; author] repo_path None
        ∈ (commit_changes env file_path repo_path).1
      ∧ subprocess_returns env ["git"; "commit"; "-m"; msg; author] repo_path
        = Ok 0
      ∧ console env ("✓ Committed: " +:+ msg) = Ok tt
      ∧ subprocess_returns env ["git"; "push"; "origin"; "main"] repo_path
        = Ok push_code
      ∧ console env (if push_code =? 0 then "  📤 Pushed to GitHub"
                     else "  ⚠️  Push failed (check connection)")
        = Ok tt.
Proof.
  run_commit_changes. repeat answer; split.
  all: try (intros H; discriminate H).
  all: try (intros _; reflexivity).
  all: try (intros _; eexists _, _; split; [found|];
            split; [congruence|]; split; [eassumption|];
            split; [reflexivity|];
            match goal with
            | |- context [Z.eqb ?x 0] =>
                destruct (Z.eqb_spec x 0); [assumption || congruence ..]
            end).
  all: intros (msg & c & Hin & Hc & Hline & Hp & Hpushed);
    try discriminate Hp.
  all: members Hin; try discriminate Hin.
  all: injection Hin as ->; try congruence.
  all: injection Hp as <-.
  all: match type of Hpushed with
       | context [Z.eqb ?x 0] =>
           destruct (Z.eqb_spec x 0); congruence
       end.
Qed.

(** A push is attempted exactly when the commit step succeeded and the
    line that reports the commit was printed, and then with the 10 s
    timeout: nothing is pushed without a new commit. *)
Theorem push_attempted_iff timeout :
  Run ["git"; "push"; "origin"; "main"] repo_path timeout
    ∈ (commit_changes env file_path repo_path).1
  ↔ timeout = Some 10
    ∧ ∃ msg,
        Run ["git"; "commit"; "-m"; msg; author] repo_path None
          ∈ (commit_changes env file_path repo_path).1
        ∧ subprocess_returns env ["git"; "commit"; "-m"; msg; author]
            repo_path = Ok 0
        ∧ console env ("✓ Committed: " +:+ msg) = Ok tt.
Proof.
  run_commit_changes. repeat answer; split.
  all: try (intros [-> (msg & Hin & Hc & Hline)]; members Hin;
            try discriminate Hin;
            try (injection Hin as ->; congruence); found).
  all: intros Hin; members Hin; try discriminate Hin.
  all: injection Hin as ->.
  all: split; [reflexivity|]; eexists; split; [found|];
    split; [congruence | eassumption].
Qed.

(** A commit that git refuses ends the call at once: no line is printed,
    nothing is pushed, and the call returns [False]. *)
Theorem failed_commit_is_silent add_code diff_code content commit_code :
  subprocess_returns env ["git"; "add"; basename file_path] repo_path
    = Ok add_code →
  subprocess_returns env ["git"; "diff"; "--cached"; "--quiet"] repo_path
    = Ok diff_code →
  diff_code ≠ 0 →
  file_text env file_path = Ok content →
  subprocess_returns env
    ["git"; "commit"; "-m"; commit_message (basename file_path) content; author]
    repo_path = Ok commit_code →
  commit_code ≠ 0 →
  commit_changes env file_path repo_path
  = ([ Run ["git"; "add"; basename file_path] repo_path (Some 5);
       Run ["git"; "diff"; "--cached"; "--quiet"] repo_path (Some 5);
       OpenRead file_path;
       Run ["git"; "commit"; "-m";
            commit_message (basename file_path) content; author]
         repo_path None ],
     Ok false).
Proof.
  intros Hadd Hdiff Hne Hread Hcommit Hfail. run_commit_changes.
  rewrite Hadd, Hdiff. cbn [fst snd app].
  destruct (Z.eqb_spec diff_code 0) as [|_]; [contradiction|].
  cbn [negb]. rewrite Hread. cbn [fst snd app]. rewrite Hcommit.
  cbn [fst snd app].
  destruct (Z.eqb_spec commit_code 0) as [|_]; [contradiction|].
  reflexivity.
Qed.

(** The operator's interrupt is not swallowed: when it arrives during a
    step, that step is the last thing the call does (no error line is
    printed) and the interrupt leaves the call. *)
Theorem interrupt_leaves_commit_changes ev :
  ev ∈ (commit_changes env file_path repo_path).1 →
  interrupts env ev →
  (commit_changes env file_path repo_path).2 = Raise KeyboardInterrupt
  ∧ last (commit_changes env file_path repo_path).1 = Some ev.
Proof.
  run_commit_changes. repeat answer; intros Hin Hi; members Hin; subst ev;
    cbn [interrupts] in Hi; try contradiction; try congruence.
  all: split; reflexivity.
Qed.

End CommitterSteps.

(** ** Base names and extensions *)

Section PathNames.

Lemma count_char_append c (a b : string) :
  PyStr.count_char c (a +:+ b)
  = (PyStr.count_char c a + PyStr.count_char c b)%nat.
Proof.
  induction a as [|x a IH]; [reflexivity|].
  rewrite append_cons. cbn [PyStr.count_char]. rewrite IH. lia.
Qed.

Lemma rfind_from_absent c s i :
  PyStr.count_char c s = 0%nat → PyStr.rfind_from c s i = -1.
Proof.
  revert i. induction s as [|x s IH]; intros i Hcount; [reflexivity|].
  cbn [PyStr.count_char] in Hcount. cbn [PyStr.rfind_from].
  destruct (Ascii.eqb x c); [discriminate Hcount|].
  rewrite IH by exact Hcount. reflexivity.
Qed.

Lemma rfind_from_last c pre s i :
  0 ≤ i →
  PyStr.count_char c s = 0%nat →
  PyStr.rfind_from c (pre +:+ String c s) i = i + Z.of_nat (String.length pre).
Proof.
  revert i. induction pre as [|x pre IH]; intros i Hi Hcount.
  - change (EmptyString +:+ String c s) with (String c s).
    cbn [PyStr.rfind_from String.length].
    rewrite (rfind_from_absent c s (i + 1) Hcount), Ascii.eqb_refl.
    cbn. lia.
  - rewrite append_cons. cbn [PyStr.rfind_from String.length].
    rewrite IH by (lia || exact Hcount).
    destruct (Z.leb_spec 0 (i + 1 + Z.of_nat (String.length pre))); lia.
Qed.

Lemma substring_all (s : string) :
  String.substring 0 (String.length s) s = s.
Proof. induction s as [|x s IH]; [reflexivity|]. cbn. by rewrite IH. Qed.

Lemma substring_drop (a b : string) :
  String.substring (String.length a) (String.length b) (a +:+ b) = b.
Proof.
  induction a as [|x a IH]; [apply substring_all|].
  rewrite append_cons. exact IH.
Qed.

Lemma substring_take (a b : string) :
  String.substring 0 (String.length a) (a +:+ b) = a.
Proof.
  induction a as [|x a IH]; [by destruct b|].
  rewrite append_cons. cbn. by rewrite IH.
Qed.

Lemma slice_from_append (a b : string) :
  PyStr.slice_from (Z.of_nat (String.length a)) (a +:+ b) = b.
Proof.
  unfold PyStr.slice_from. rewrite Nat2Z.id, length_append.
  replace (String.length a + String.length b - String.length a)%nat
    with (String.length b) by lia.
  apply substring_drop.
Qed.

(** [basename] returns what follows the last slash. *)
Lemma basename_append pre name :
  PyStr.count_char "/" name = 0%nat →
  basename (pre +:+ String "/" name) = name.
Proof.
  intros Hname. unfold basename, PyStr.rfind.
  rewrite (rfind_from_last "/" pre name 0) by (lia || exact Hname).
  replace (0 + Z.of_nat (String.length pre) + 1)
    with (Z.of_nat (String.length (pre +:+ "/"))).
  - replace (pre +:+ String "/" name) with ((pre +:+ "/") +:+ name).
    + apply slice_from_append.
    + by rewrite append_assoc.
  - rewrite length_append. cbn [String.length]. lia.
Qed.

Lemma join_snoc sep part parts name :
  PyStr.join sep ((part :: parts) ++ [name])
  = PyStr.join sep (part :: parts) +:+ sep +:+ name.
Proof.
  revert part. induction parts as [|q parts IH]; intros part; [reflexivity|].
  change (PyStr.join sep ((part :: q :: parts) ++ [name]))
    with (part +:+ sep +:+ PyStr.join sep ((q :: parts) ++ [name])).
  rewrite IH.
  change (PyStr.join sep (part :: q :: parts))
    with (part +:+ sep +:+ PyStr.join sep (q :: parts)).
  by rewrite !append_assoc.
Qed.

(** The path of an entry is the path of its directory, a slash, and its
    name. *)
Lemma str_path_snoc parts name :
  ∃ pre, str_path (parts ++ [name]) = pre +:+ String "/" name.
Proof.
  destruct parts as [|part parts].
  - by exists EmptyString.
  - exists (str_path (part :: parts)). unfold str_path.
    rewrite join_snoc. by rewrite !append_assoc.
Qed.

Lemma basename_str_path parts name :
  PyStr.count_char "/" name = 0%nat →
  basename (str_path (parts ++ [name])) = name.
Proof.
  intros Hname. destruct (str_path_snoc parts name) as [pre ->].
  by apply basename_append.
Qed.

Lemma splitext_dot_go stem :
  PyStr.count_char "/" stem = 0%nat →
  splitext (stem +:+ ".go")
  = if PyStr.has_other_than "." stem then (stem, ".go")
    else (stem +:+ ".go", EmptyString).
Proof.
  intros Hstem. unfold splitext, PyStr.rfind.
  rewrite (rfind_from_absent "/" (stem +:+ ".go") 0)
    by (rewrite count_char_append, Hstem; reflexivity).
  rewrite (rfind_from_last "." stem "go" 0) by (lia || reflexivity).
  assert (Hlt : (-1 <? 0 + Z.of_nat (String.length stem)) = true)
    by (apply Z.ltb_lt; lia).
  rewrite Hlt. cbn [andb].
  assert (Hslice : PyStr.slice (-1 + 1) (0 + Z.of_nat (String.length stem))
                     (stem +:+ ".go") = stem).
  { unfold PyStr.slice.
    replace (Z.to_nat (-1 + 1)) with 0%nat by lia.
    replace (Z.to_nat (0 + Z.of_nat (String.length stem) - (-1 + 1)))
      with (String.length stem) by lia.
    apply substring_take. }
  rewrite Hslice. destruct (PyStr.has_other_than "." stem); [|reflexivity].
  f_equal.
  - unfold PyStr.slice.
    replace (Z.to_nat 0) with 0%nat by lia.
    replace (Z.to_nat (0 + Z.of_nat (String.length stem) - 0))
      with (String.length stem) by lia.
    apply substring_take.
  - replace (0 + Z.of_nat (String.length stem))
      with (Z.of_nat (String.length stem)) by lia.
    apply slice_from_append.
Qed.

(** The staging step names the file by its last component only, inside
    the repository root: the directories between the root and the file do
    not reach git. *)
Theorem staging_uses_base_name env parts name repo_path :
  PyStr.count_char "/" name = 0%nat →
  (commit_changes env (str_path (parts ++ [name])) repo_path).1 !! 0%nat
  = Some (Run ["git"; "add"; name] repo_path (Some 5)).
Proof.
  intros Hname.
  unfold commit_changes, commit_changes_body, try_except_Exception,
    subprocess_run, read_text, print, bind, ret.
  rewrite (basename_str_path parts name Hname). cbn [fst snd app].
  repeat (match goal with
          | |- context [subprocess_returns ?e ?c ?d] =>
              destruct (subprocess_returns e c d) as [?|[?|]]
          | |- context [file_text ?e ?p] =>
              destruct (file_text e p) as [?|[?|]]
          | |- context [console ?e ?l] =>
              destruct (console e l) as [[]|[?|]]
          | |- context [Z.eqb ?x 0] => destruct (Z.eqb x 0)
          end; cbn [fst snd app negb]);
    reflexivity.
Qed.

(** For a file [<stem>.go] the message names the stem: the extension is
    cut at the last dot, unless the stem is empty or made of dots only,
    in which case the whole name stays. *)
Theorem commit_message_names_stem stem content :
  PyStr.count_char "/" stem = 0%nat →
  let shown :=
    if PyStr.has_other_than "." stem then stem else stem +:+ ".go" in
  (splitext (stem +:+ ".go")).1 = shown
  ∧ ∃ rest,
      commit_message (stem +:+ ".go") content
      = "Update " +:+ shown +:+ ": " +:+ rest.
Proof.
  intros Hstem shown.
  assert (Hbase : (splitext (stem +:+ ".go")).1 = shown).
  { rewrite (splitext_dot_go stem Hstem). subst shown.
    by destruct (PyStr.has_other_than "." stem). }
  split; [exact Hbase|].
  unfold commit_message. rewrite Hbase. eauto.
Qed.

(** The shape of every commit message: the base name, the first three
    labels joined by commas or the words code update, and one more than the
    number of newline characters of the content as the line count, which
    is therefore never 0. *)
Theorem commit_message_shape file_name content :
  commit_message file_name content
  = "Update " +:+ (splitext file_name).1 +:+ ": "
    +:+ (if bool_decide (analyze_file content file_name = [])
         then "code update"
         else PyStr.join ", " (take 3 (analyze_file content file_name)))
    +:+ " (" +:+ PyStr.str_of_nat (S (PyStr.count_char PyStr.chr10 content))
    +:+ " lines)".
Proof. apply commit_message_form. Qed.

End PathNames.

Lemma staging_uses_base_name_witness :
  PyStr.count_char "/" "util.go" = 0%nat
  ∧ (commit_changes (env_answers 1 0 (Ok 0))
       (str_path (["repo"; "pkg"] ++ ["util.go"])) "/repo").1 !! 0%nat
    = Some (Run ["git"; "add"; "util.go"] "/repo" (Some 5)).
Proof.
  split; [reflexivity|].
  apply (staging_uses_base_name (env_answers 1 0 (Ok 0))
           ["repo"; "pkg"] "util.go" "/repo").
  reflexivity.
Defined.

Lemma commit_message_names_stem_witness :
  PyStr.count_char "/" "main" = 0%nat
  ∧ (splitext ("main" +:+ ".go")).1 = "main".
Proof.
  split; [reflexivity|].
  exact (proj1 (commit_message_names_stem "main" one_line_file eq_refl)).
Defined.

(** ** Sample runs of the Analyzer and Committer properties *)

Lemma analyze_file_label_iff_witness :
  (true, "functions") ∈ checks "func main() {}"
  ∧ "functions" ∈ analyze_file "func main() {}" "main.go".
Proof.
  assert (Hcheck : (true, "functions") ∈ checks "func main() {}").
  { vm_compute.
    repeat first [apply list_elem_of_here | apply list_elem_of_further]. }
  split; [exact Hcheck|].
  exact (proj2 (analyze_file_label_iff "func main() {}" "main.go" "functions")
           Hcheck).
Defined.

Lemma analyze_file_goroutines_slice_witness :
  (PyStr.contains "goroutine" "let us go home" = true
   ∨ PyStr.contains "go " "let us go home" = true)
  ∧ "goroutines" ∈ analyze_file "let us go home" "notes.go".
Proof.
  assert (Hgo : PyStr.contains "goroutine" "let us go home" = true
                ∨ PyStr.contains "go " "let us go home" = true)
    by (right; reflexivity).
  split; [exact Hgo|].
  exact (proj2 (proj1 (analyze_file_goroutines_slice "let us go home" "notes.go"))
           Hgo).
Defined.

Lemma no_staged_differences_no_commit_witness :
  subprocess_returns (env_answers 0 0 (Ok 0))
    ["git"; "add"; basename "/repo/main.go"] "/repo" = Ok 0
  ∧ subprocess_returns (env_answers 0 0 (Ok 0))
      ["git"; "diff"; "--cached"; "--quiet"] "/repo" = Ok 0
  ∧ commit_changes (env_answers 0 0 (Ok 0)) "/repo/main.go" "/repo"
    = ([ Run ["git"; "add"; basename "/repo/main.go"] "/repo" (Some 5);
         Run ["git"; "diff"; "--cached"; "--quiet"] "/repo" (Some 5) ],
       Ok false).
Proof.
  split; [reflexivity|]. split; [reflexivity|].
  exact (no_staged_differences_no_commit (env_answers 0 0 (Ok 0))
           "/repo/main.go" "/repo" 0 eq_refl eq_refl).
Defined.

Lemma commit_attempted_iff_witness :
  Run ["git"; "commit"; "-m"; "Update main: main package (2 lines)"; author]
    "/repo" None
    ∈ (commit_changes (env_answers 1 1 (Ok 0)) "/repo/main.go" "/repo").1.
Proof.
  apply (proj2 (commit_attempted_iff (env_answers 1 1 (Ok 0))
                  "/repo/main.go" "/repo"
                  "Update main: main package (2 lines)" author None)).
  split; [reflexivity|]. split; [reflexivity|].
  exists 0, 1, one_line_file.
  split; [reflexivity|]. split; [reflexivity|]. split; [lia|].
  split; [reflexivity|]. vm_compute. reflexivity.
Defined.

Lemma returns_True_iff_witness :
  console (env_answers 1 0 (Ok 1))
    ("✓ Committed: " +:+ "Update main: main package (2 lines)") = Ok tt
  ∧ (commit_changes (env_answers 1 0 (Ok 1)) "/repo/main.go" "/repo").2
    = Ok true.
Proof.
  split; [reflexivity|].
  apply (proj2 (returns_True_iff (env_answers 1 0 (Ok 1))
                  "/repo/main.go" "/repo")).
  exists "Update main: main package (2 lines)", 1.
  split.
  { vm_compute.
    repeat first [apply list_elem_of_here | apply list_elem_of_further]. }
  split; [reflexivity|]. split; [reflexivity|].
  split; reflexivity.
Defined.

Lemma push_attempted_iff_witness :
  Run ["git"; "push"; "origin"; "main"] "/repo" (Some 10)
    ∈ (commit_changes (env_answers 1 0 (Ok 0)) "/repo/main.go" "/repo").1
  ∧ ∃ msg,
      Run ["git"; "commit"; "-m"; msg; author] "/repo" None
        ∈ (commit_changes (env_answers 1 0 (Ok 0)) "/repo/main.go" "/repo").1
      ∧ subprocess_returns (env_answers 1 0 (Ok 0))
          ["git"; "commit"; "-m"; msg; author] "/repo" = Ok 0
      ∧ console (env_answers 1 0 (Ok 0)) ("✓ Committed: " +:+ msg) = Ok tt.
Proof.
  assert (Hpush :
            Run ["git"; "push"; "origin"; "main"] "/repo" (Some 10)
            ∈ (commit_changes (env_answers 1 0 (Ok 0)) "/repo/main.go" "/repo").1).
  { vm_compute.
    repeat first [apply list_elem_of_here | apply list_elem_of_further]. }
  split; [exact Hpush|].
  exact (proj2 (proj1 (push_attempted_iff (env_answers 1 0 (Ok 0))
                         "/repo/main.go" "/repo" (Some 10)) Hpush)).
Defined.

Lemma failed_commit_is_silent_witness :
  (1 : Z) ≠ 0
  ∧ commit_changes (env_answers 1 1 (Ok 0)) "/repo/main.go" "/repo"
    = ([ Run ["git"; "add"; basename "/repo/main.go"] "/repo" (Some 5);
         Run ["git"; "diff"; "--cached"; "--quiet"] "/repo" (Some 5);
         OpenRead "/repo/main.go";
         Run ["git"; "commit"; "-m";
              commit_message (basename "/repo/main.go") one_line_file; author]
           "/repo" None ],
       Ok false).
Proof.
  assert (Hne : (1 : Z) ≠ 0) by lia.
  split; [exact Hne|].
  exact (failed_commit_is_silent (env_answers 1 1 (Ok 0))
           "/repo/main.go" "/repo" 0 1 one_line_file 1
           eq_refl eq_refl Hne eq_refl eq_refl Hne).
Defined.

Lemma interrupt_leaves_commit_changes_witness :
  interrupts (env_answers 1 0 (Raise KeyboardInterrupt))
    (Run ["git"; "push"; "origin"; "main"] "/repo" (Some 10))
  ∧ (commit_changes (env_answers 1 0 (Raise KeyboardInterrupt))
       "/repo/main.go" "/repo").2 = Raise KeyboardInterrupt.
Proof.
  assert (Hint : interrupts (env_answers 1 0 (Raise KeyboardInterrupt))
                   (Run ["git"; "push"; "origin"; "main"] "/repo" (Some 10)))
    by reflexivity.
  split; [exact Hint|].
  apply (interrupt_leaves_commit_changes
           (env_answers 1 0 (Raise KeyboardInterrupt)) "/repo/main.go" "/repo"
           (Run ["git"; "push"; "origin"; "main"] "/repo" (Some 10))).
  - vm_compute.
    repeat first [apply list_elem_of_here | apply list_elem_of_further].
  - exact Hint.
Defined.

(** ** More on the File Scanner *)

Section ScannerResults.

Lemma go_file_at_last root rel :
  go_file_at root rel →
  ∃ dirs name, rel = dirs ++ [name] ∧ fnmatch "*.go" name = true.
Proof.
  induction 1 as [entries name _ Hmatch | entries name child rel _ _ IH].
  - by exists [], name.
  - destruct IH as (dirs & last_name & -> & Hmatch).
    by exists (name :: dirs), last_name.
Qed.

(** The paths returned are exactly the regular files named [*.go] at any
    depth under the root, a missing root having none. *)
Theorem go_files_found_iff fs repo_path p :
  In p (get_go_files fs repo_path)
  ↔ ∃ root rel,
      resolve fs repo_path = Some root ∧ go_file_at root rel
      ∧ p = str_path (repo_path ++ rel).
Proof. apply get_go_files_elem. Qed.

(** The result is empty exactly when no such file exists: also when the
    root is missing or is a regular file, without any error. *)
Theorem no_go_files_iff fs repo_path :
  get_go_files fs repo_path = []
  ↔ ∀ root rel, resolve fs repo_path = Some root → ¬ go_file_at root rel.
Proof.
  split.
  - intros Hnil root rel Hroot Hat.
    assert (Hin : In (str_path (repo_path ++ rel)) (get_go_files fs repo_path)).
    { apply get_go_files_elem. by exists root, rel. }
    rewrite Hnil in Hin. destruct Hin.
  - intros Hnone.
    destruct (get_go_files fs repo_path) as [|p files] eqn:Hfiles;
      [reflexivity|].
    assert (Hin : In p (get_go_files fs repo_path))
      by (rewrite Hfiles; by left).
    apply get_go_files_elem in Hin as (root & rel & Hroot & Hat & _).
    destruct (Hnone root rel Hroot Hat).
Qed.

(** Every path returned is absolute and ends in [.go]. *)
Theorem go_files_end_in_dot_go fs repo_path p :
  In p (get_go_files fs repo_path) →
  ∃ stem, p = "/" +:+ stem +:+ ".go".
Proof.
  intros (root & rel & _ & Hat & ->)%get_go_files_elem.
  destruct (go_file_at_last root rel Hat) as (dirs & name & -> & Hmatch).
  apply fnmatch_star_go in Hmatch as [stem ->].
  rewrite app_assoc.
  destruct (repo_path ++ dirs) as [|part parts].
  - by exists stem.
  - exists (PyStr.join "/" (part :: parts) +:+ "/" +:+ stem).
    unfold str_path. rewrite join_snoc. by rewrite !append_assoc.
Qed.

(** The result lists the [.go] files of the root directory first, then
    the same files once more, then the files of the directories beneath. *)
Theorem top_level_files_listed_twice fs repo_path entries :
  resolve fs repo_path = Some (Dir entries) →
  let top :=
    map (fun f => str_path f.1)
      (List.filter (fun f => is_file f.2)
         (glob_children "*.go" repo_path (Dir entries))) in
  let beneath :=
    map (fun f => str_path f.1)
      (List.filter (fun f => is_file f.2)
         (flat_map (fun e => glob_recursive "*.go" (repo_path ++ [e.1]) e.2)
            entries)) in
  get_go_files fs repo_path = top ++ top ++ beneath.
Proof. apply get_go_files_top_twice. Qed.

End ScannerResults.

Lemma go_files_found_iff_witness :
  go_file_at (Dir [ (".git", Dir []); ("main.go", File);
                    ("pkg", Dir [ ("util.go", File); ("README.md", File) ]) ])
    ["pkg"; "util.go"]
  ∧ In "/repo/pkg/util.go" (get_go_files sample_tree ["repo"]).
Proof.
  assert (Hat : go_file_at
                  (Dir [ (".git", Dir []); ("main.go", File);
                         ("pkg", Dir [ ("util.go", File); ("README.md", File) ]) ])
                  ["pkg"; "util.go"]).
  { eapply go_file_deeper; [right; right; left; reflexivity|].
    apply go_file_here; [left; reflexivity | reflexivity]. }
  split; [exact Hat|].
  apply (proj2 (go_files_found_iff sample_tree ["repo"] "/repo/pkg/util.go")).
  eexists _, ["pkg"; "util.go"].
  split; [reflexivity|]. split; [exact Hat | reflexivity].
Defined.

Lemma no_go_files_iff_witness :
  (∀ root rel, resolve sample_tree ["repo"; "docs"] = Some root →
               ¬ go_file_at root rel)
  ∧ get_go_files sample_tree ["repo"; "docs"] = [].
Proof.
  assert (Hnone : ∀ root rel, resolve sample_tree ["repo"; "docs"] = Some root →
                              ¬ go_file_at root rel)
    by (intros root rel Hroot; discriminate Hroot).
  split; [exact Hnone|].
  exact (proj2 (no_go_files_iff sample_tree ["repo"; "docs"]) Hnone).
Defined.

Lemma go_files_end_in_dot_go_witness :
  In "/repo/pkg/util.go" (get_go_files sample_tree ["repo"])
  ∧ ∃ stem, "/repo/pkg/util.go" = "/" +:+ stem +:+ ".go".
Proof.
  assert (Hin : In "/repo/pkg/util.go" (get_go_files sample_tree ["repo"]))
    by (vm_compute; auto).
  split; [exact Hin|].
  exact (go_files_end_in_dot_go sample_tree ["repo"] "/repo/pkg/util.go" Hin).
Defined.

Lemma top_level_files_listed_twice_witness :
  resolve sample_tree ["repo"]
  = Some (Dir [ (".git", Dir []); ("main.go", File);
                ("pkg", Dir [ ("util.go", File); ("README.md", File) ]) ])
  ∧ get_go_files sample_tree ["repo"]
    = ["/repo/main.go"] ++ ["/repo/main.go"] ++ ["/repo/pkg/util.go"].
Proof.
  split; [reflexivity|].
  rewrite (top_level_files_listed_twice sample_tree ["repo"] _ eq_refl).
  vm_compute. reflexivity.
Defined.

(** ** More on the Watch Loop *)

Section WatchLoopSteps.

Variable repo_path : string.

Implicit Types (file_mtimes : gmap string Z) (f : string) (t : Z).
Implicit Types (reads : list (string * option Z)).

Lemma scan_new_files_other files file_mtimes f :
  f ∉ files →
  (scan_new_files repo_path files file_mtimes).1 !! f = file_mtimes !! f.
Proof.
  revert file_mtimes. induction files as [|f0 files IH]; intros m Hout.
  - reflexivity.
  - apply not_elem_of_cons in Hout as [Hne Hout]. cbn [scan_new_files].
    destruct (m !! f0) as [t0|] eqn:E0.
    + specialize (IH m Hout).
      destruct (scan_new_files repo_path files m). exact IH.
    + specialize (IH (<[f0:=0]> m) Hout).
      rewrite lookup_insert_ne in IH by congruence.
      destruct (scan_new_files repo_path files _). exact IH.
Qed.

Lemma scan_new_files_noop files file_mtimes :
  (∀ f, f ∈ files → is_Some (file_mtimes !! f)) →
  scan_new_files repo_path files file_mtimes = (file_mtimes, []).
Proof.
  induction files as [|f0 files IH]; intros Hall; [reflexivity|].
  cbn [scan_new_files].
  destruct (Hall f0 (list_elem_of_here _ _)) as [t0 ->].
  rewrite IH; [reflexivity|].
  intros f Hin. apply Hall, list_elem_of_further, Hin.
Qed.

Lemma scan_new_files_tracks files file_mtimes f :
  f ∈ files →
  is_Some ((scan_new_files repo_path files file_mtimes).1 !! f).
Proof.
  intros Hin. destruct (file_mtimes !! f) as [t|] eqn:Ef.
  - exists t. by apply scan_new_files_old.
  - exists 0. by apply scan_new_files_new.
Qed.

Lemma check_file_commit_inv file_mtimes g read f rp :
  CommitChanges f rp ∈ (check_file repo_path file_mtimes g read).2 →
  f = g ∧ rp = repo_path.
Proof.
  unfold check_file. destruct read as [mtime|]; [|by intros ?%elem_of_nil].
  destruct (_ >? _); [|by intros ?%elem_of_nil].
  destruct (_ >? 0); [|by intros ?%elem_of_nil].
  cbn [snd]. intros Hin.
  repeat (apply elem_of_cons in Hin as [Hin|Hin]); try discriminate Hin.
  - by injection Hin as -> ->.
  - by apply elem_of_nil in Hin.
Qed.

Lemma check_files_other reads file_mtimes f :
  f ∉ reads.*1 →
  (check_files repo_path reads file_mtimes).1 !! f = file_mtimes !! f
  ∧ ∀ rp, CommitChanges f rp ∉ (check_files repo_path reads file_mtimes).2.
Proof.
  revert file_mtimes. induction reads as [|[g read] reads IH]; intros m Hout.
  - split; [reflexivity | intros rp; apply not_elem_of_nil].
  - rewrite fmap_cons in Hout. cbn [fst] in Hout.
    apply not_elem_of_cons in Hout as [Hne Hout]. cbn [check_files].
    destruct (check_file_other repo_path m g f read) as [Hl Hc]; [congruence|].
    destruct (check_file repo_path m g read) as [m1 now]. cbn [fst snd] in *.
    specialize (IH m1 Hout).
    destruct (check_files repo_path reads m1) as [m2 later].
    cbn [fst snd] in *. destruct IH as [Hl2 Hc2].
    split; [congruence|].
    intros rp [Hin|Hin]%elem_of_app; [by eapply Hc | by eapply Hc2].
Qed.

Lemma check_files_commit_inv reads file_mtimes f rp :
  CommitChanges f rp ∈ (check_files repo_path reads file_mtimes).2 →
  rp = repo_path ∧ f ∈ reads.*1.
Proof.
  revert file_mtimes. induction reads as [|[g read] reads IH]; intros m.
  - by intros ?%elem_of_nil.
  - cbn [check_files].
    pose proof (check_file_commit_inv m g read f rp) as Hnow.
    destruct (check_file repo_path m g read) as [m1 now]. cbn [fst snd] in *.
    specialize (IH m1).
    destruct (check_files repo_path reads m1) as [m2 later].
    cbn [fst snd] in *. rewrite fmap_cons. cbn [fst].
    intros [Hin|Hin]%elem_of_app.
    + destruct (Hnow Hin) as [-> ->]. split; [reflexivity | apply list_elem_of_here].
    + destruct (IH Hin) as [-> Hf].
      split; [reflexivity | by apply list_elem_of_further].
Qed.



End WatchLoopSteps.

Section WatchLoopCycle.

Variable repo_path : string.

Implicit Types (file_mtimes : gmap string Z) (f : string) (t : Z).
Implicit Types (reads : list (string * option Z)).


(** A path that the re-scan no longer finds (a deleted file) is left as it
    is: its entry keeps its value and the Committer is not called for it. *)
Theorem unscanned_path_untouched reads file_mtimes f :
  f ∉ reads.*1 →
  (poll_cycle repo_path reads file_mtimes).1 !! f = file_mtimes !! f
  ∧ ∀ rp, CommitChanges f rp ∉ (poll_cycle repo_path reads file_mtimes).2.
Proof.
  intros Hout. rewrite poll_cycle_unfold. cbn [fst snd].
  destruct (check_files_other repo_path reads
              (scan_new_files repo_path reads.*1 file_mtimes).1 f Hout)
    as [Hl Hc].
  split.
  - rewrite Hl. by apply scan_new_files_other.
  - intros rp [Hin|[Hin|Hin]%elem_of_app]%elem_of_cons.
    + discriminate Hin.
    + apply scan_new_files_prints in Hin as [line Hin]. discriminate Hin.
    + by eapply Hc.
Qed.

Lemma poll_cycle_commit_inv reads file_mtimes f rp :
  CommitChanges f rp ∈ (poll_cycle repo_path reads file_mtimes).2 →
  rp = repo_path ∧ f ∈ reads.*1.
Proof.
  rewrite poll_cycle_unfold. cbn [fst snd].
  intros [Hin|[Hin|Hin]%elem_of_app]%elem_of_cons.
  - discriminate Hin.
  - apply scan_new_files_prints in Hin as [line Hin]. discriminate Hin.
  - by eapply check_files_commit_inv.
Qed.

(** The Committer is only ever called for a path of the current scan, and
    always with the repository path of the loop. *)
Theorem commits_only_for_scanned_paths reads file_mtimes f rp :
  CommitChanges f rp ∈ (poll_cycle repo_path reads file_mtimes).2 →
  rp = repo_path ∧ f ∈ reads.*1.
Proof. apply poll_cycle_commit_inv. Qed.

(** After a poll cycle every scanned path is tracked. *)
Theorem scanned_paths_are_tracked reads file_mtimes f :
  f ∈ reads.*1 →
  is_Some ((poll_cycle repo_path reads file_mtimes).1 !! f).
Proof.
  intros Hin. rewrite poll_cycle_unfold. cbn [fst].
  destruct (scan_new_files_tracks repo_path reads.*1 file_mtimes f Hin)
    as [t Ht].
  destruct (check_files_mtimes_le repo_path reads _ f t Ht) as (t' & Ht' & _).
  by exists t'.
Qed.

(** Paths that are tracked already are not announced again: the scan for
    new files then prints nothing and changes nothing, so scanning the
    same paths a second time is silent. *)
Theorem tracked_files_not_announced files file_mtimes :
  ((∀ f, f ∈ files → is_Some (file_mtimes !! f)) →
   scan_new_files repo_path files file_mtimes = (file_mtimes, []))
  ∧ scan_new_files repo_path files
      (scan_new_files repo_path files file_mtimes).1
    = ((scan_new_files repo_path files file_mtimes).1, []).
Proof.
  split; [apply scan_new_files_noop|].
  apply scan_new_files_noop. intros f Hin. by apply scan_new_files_tracks.
Qed.

End WatchLoopCycle.

(** ** Start-up tracking and the run as a whole *)

Lemma observe_paths getmtime files : (observe getmtime files).*1 = files.
Proof.
  unfold observe. revert getmtime.
  induction files as [|f files IH]; intros getmtime; [reflexivity|].
  cbn [imap fmap list_fmap fst]. f_equal. apply IH.
Qed.

Lemma track_initial_is_Some reads (file_mtimes : gmap string Z) f :
  is_Some (track_initial reads file_mtimes !! f)
  ↔ f ∈ reads.*1 ∨ is_Some (file_mtimes !! f).
Proof.
  revert file_mtimes. induction reads as [|[g read] reads IH]; intros m.
  - cbn. rewrite elem_of_nil. tauto.
  - cbn [track_initial]. rewrite IH, fmap_cons, elem_of_cons. cbn [fst].
    destruct (decide (g = f)) as [->|Hne].
    + rewrite lookup_insert_eq. split; [intros _; by left; left | intros _; right; eauto].
    + rewrite lookup_insert_ne by exact Hne.
      split; [intros [?|?]; auto | intros [[?|?]|?]; auto; congruence].
Qed.

(** At start-up exactly the scanned paths get tracked, so the first
    re-scan of the same paths announces no new file. *)
Theorem startup_tracks_scanned_files repo_path getmtime files :
  (∀ f, is_Some (track_initial (observe getmtime files) ∅ !! f) ↔ f ∈ files)
  ∧ scan_new_files repo_path files
      (track_initial (observe getmtime files) ∅)
    = (track_initial (observe getmtime files) ∅, []).
Proof.
  assert (Hkeys : ∀ f, is_Some (track_initial (observe getmtime files) ∅ !! f)
                       ↔ f ∈ files).
  { intros f. rewrite track_initial_is_Some, observe_paths, lookup_empty.
    split; [intros [?|[? ?]]; [assumption | discriminate] | by left]. }
  split; [exact Hkeys|].
  apply scan_new_files_noop. intros f Hin. by apply Hkeys.
Qed.

Lemma watch_loop_commit_inv repo_path cycles (file_mtimes : gmap string Z) f rp :
  CommitChanges f rp ∈ (watch_loop repo_path cycles file_mtimes).2 →
  rp = str_path repo_path
  ∧ ∃ c, c ∈ cycles ∧ In f (get_go_files (cycle_fs c) repo_path).
Proof.
  revert file_mtimes. induction cycles as [|c cycles IH]; intros m.
  - by intros ?%elem_of_nil.
  - cbn [watch_loop].
    pose proof (poll_cycle_commit_inv (str_path repo_path)
                  (observe (cycle_getmtime c) (get_go_files (cycle_fs c) repo_path))
                  m f rp) as Hnow.
    destruct (poll_cycle _ _ m) as [m1 now]. cbn [fst snd] in *.
    specialize (IH m1).
    destruct (watch_loop repo_path cycles m1) as [m2 later].
    cbn [fst snd] in *.
    intros [Hin|Hin]%elem_of_app.
    + destruct (Hnow Hin) as [-> Hf]. rewrite observe_paths in Hf.
      split; [reflexivity|]. exists c.
      split; [apply list_elem_of_here | by apply list_elem_of_In].
    + destruct (IH Hin) as [-> (c' & Hc' & Hf)].
      split; [reflexivity|]. exists c'.
      split; [by apply list_elem_of_further | exact Hf].
Qed.

(** The calls of the Committer in a run of the loop are calls of the
    completed cycles. *)
Lemma watch_loop_io_commit_inv repo_path cycles (file_mtimes : gmap string Z)
    f rp :
  CommitChanges f rp ∈ (watch_loop_io repo_path cycles file_mtimes).1 →
  rp = str_path repo_path
  ∧ ∃ c, c ∈ cycles ∧ In f (get_go_files (cycle_fs c) repo_path).
Proof.
  intros Hin.
  apply (watch_loop_commit_inv repo_path cycles file_mtimes).
  pose proof (elem_of_sublist _ _ _ Hin
                (watch_loop_io_refines repo_path cycles file_mtimes)) as Hpure.
  apply elem_of_app in Hpure as [Hpure|Hpure]; [exact Hpure|].
  apply list_elem_of_singleton in Hpure. discriminate Hpure.
Qed.

(** Whatever a run of the program hands to the Committer is a regular
    [.go] file found under the resolved repository path by the scan of
    some poll cycle, and the Committer works in that repository path; a run
    that ends at one of the two start-up tests hands it nothing. *)
Theorem main_commits_only_go_files w f rp :
  CommitChanges f rp ∈ (main w).1 →
  exists_path (fs w) (resolve_repo_path w ++ [".git"]) = true
  ∧ get_go_files (fs w) (resolve_repo_path w) ≠ []
  ∧ rp = str_path (resolve_repo_path w)
  ∧ ∃ c root rel,
      c ∈ cycles w
      ∧ resolve (cycle_fs c) (resolve_repo_path w) = Some root
      ∧ go_file_at root rel
      ∧ f = str_path (resolve_repo_path w ++ rel).
Proof.
  assert (Hone : ∀ (steps : M unit) line code,
            steps = print (startup_env w) line →
            CommitChanges f rp ∈ (exit_after steps code).1 → False).
  { intros steps line code ->. unfold exit_after, print.
    destruct (console _ _) as [[]|r]; cbn [fst];
      intros [Hin|Hin%elem_of_nil]%elem_of_cons;
      solve [discriminate Hin | destruct Hin]. }
  unfold main, get_go_files_io.
  destruct (exists_path (fs w) (resolve_repo_path w ++ [".git"])); cbn [negb].
  2: { intros Hin. destruct (Hone _ _ _ eq_refl Hin). }
  destruct (scan_raises (startup_env w)).
  { by intros ?%elem_of_nil. }
  destruct (get_go_files (fs w) (resolve_repo_path w)) as [|p go_files].
  { intros Hin. destruct (Hone _ _ _ eq_refl Hin). }
  pose proof (print_lines_prints (startup_env w)
                (banner_lines (str_path (resolve_repo_path w)) (p :: go_files))
                (CommitChanges f rp)) as Hbanner.
  destruct (print_lines _ _) as [printed [[]|r]]; cbn [fst] in *.
  2: { intros Hin. destruct (Hbanner Hin) as [line Hline].
       discriminate Hline. }
  pose proof (watch_loop_io_commit_inv (resolve_repo_path w) (cycles w)
                (track_initial (observe (getmtime w) (p :: go_files)) ∅)
                f rp) as Hloop.
  destruct (watch_loop_io _ _ _) as [polled r]. cbn [fst] in Hloop.
  assert (Hpolled : CommitChanges f rp ∈ printed ++ polled →
            true = true ∧ p :: go_files ≠ []
            ∧ rp = str_path (resolve_repo_path w)
            ∧ ∃ c root rel,
                c ∈ cycles w
                ∧ resolve (cycle_fs c) (resolve_repo_path w) = Some root
                ∧ go_file_at root rel
                ∧ f = str_path (resolve_repo_path w ++ rel)).
  { intros [Hin|Hin]%elem_of_app.
    - destruct (Hbanner Hin) as [line Hline]. discriminate Hline.
    - destruct (Hloop Hin) as [-> (c & Hc & Hf)].
      apply get_go_files_elem in Hf as (root & rel & Hroot & Hat & ->).
      split; [reflexivity|]. split; [discriminate|].
      split; [reflexivity|]. by exists c, root, rel. }
  destruct r as [e|]; [exact Hpolled|].
  pose proof (Hone _ (PyStr.newline +:+ "✓ Watcher stopped") 0 eq_refl)
    as Hstop.
  destruct (exit_after _ 0) as [stopped ending]. cbn [fst] in *.
  rewrite app_assoc. intros [Hin|Hin]%elem_of_app; [auto|].
  destruct (Hstop Hin).
Qed.

(** ** Sample runs of the Watch Loop properties *)


Lemma unscanned_path_untouched_witness :
  ("/repo/gone.go" ∉ [("/repo/main.go", Some 200)].*1)
  ∧ (poll_cycle "/repo" [("/repo/main.go", Some 200)]
       {[ "/repo/gone.go" := 50 ]}).1 !! "/repo/gone.go"
    = ({[ "/repo/gone.go" := 50 ]} : gmap string Z) !! "/repo/gone.go".
Proof.
  assert (Hout : "/repo/gone.go" ∉ [("/repo/main.go", Some 200)].*1).
  { intros Hin. apply list_elem_of_singleton in Hin. discriminate Hin. }
  split; [exact Hout|].
  exact (proj1 (unscanned_path_untouched "/repo"
                  [("/repo/main.go", Some 200)] {[ "/repo/gone.go" := 50 ]}
                  "/repo/gone.go" Hout)).
Defined.

Lemma commits_only_for_scanned_paths_witness :
  CommitChanges "/repo/main.go" "/repo"
    ∈ (poll_cycle "/repo" [("/repo/main.go", Some 200)]
         {[ "/repo/main.go" := 100 ]}).2
  ∧ "/repo/main.go" ∈ [("/repo/main.go", Some 200)].*1.
Proof.
  assert (Hin : CommitChanges "/repo/main.go" "/repo"
                ∈ (poll_cycle "/repo" [("/repo/main.go", Some 200)]
                     {[ "/repo/main.go" := 100 ]}).2).
  { vm_compute.
    repeat first [apply list_elem_of_here | apply list_elem_of_further]. }
  split; [exact Hin|].
  exact (proj2 (commits_only_for_scanned_paths "/repo" _ _ _ _ Hin)).
Defined.

Lemma scanned_paths_are_tracked_witness :
  "/repo/new.go" ∈ [("/repo/new.go", @None Z)].*1
  ∧ is_Some ((poll_cycle "/repo" [("/repo/new.go", None)] ∅).1 !! "/repo/new.go").
Proof.
  assert (Hin : "/repo/new.go" ∈ [("/repo/new.go", @None Z)].*1)
    by apply list_elem_of_here.
  split; [exact Hin|].
  exact (scanned_paths_are_tracked "/repo" [("/repo/new.go", None)] ∅
           "/repo/new.go" Hin).
Defined.

Lemma tracked_files_not_announced_witness :
  (∀ f, f ∈ ["/repo/main.go"] →
        is_Some (({[ "/repo/main.go" := 100 ]} : gmap string Z) !! f))
  ∧ scan_new_files "/repo" ["/repo/main.go"] {[ "/repo/main.go" := 100 ]}
    = ({[ "/repo/main.go" := 100 ]}, []).
Proof.
  assert (Hall : ∀ f, f ∈ ["/repo/main.go"] →
                      is_Some (({[ "/repo/main.go" := 100 ]} : gmap string Z) !! f)).
  { intros f ->%list_elem_of_singleton. by exists 100. }
  split; [exact Hall|].
  exact (proj1 (tracked_files_not_announced "/repo" ["/repo/main.go"]
                  {[ "/repo/main.go" := 100 ]}) Hall).
Defined.

Lemma startup_tracks_scanned_files_witness :
  "/repo/main.go" ∈ get_go_files sample_tree ["repo"]
  ∧ is_Some (track_initial
               (observe (fun _ => Some 100) (get_go_files sample_tree ["repo"]))
               ∅ !! "/repo/main.go").
Proof.
  assert (Hin : "/repo/main.go" ∈ get_go_files sample_tree ["repo"])
    by (vm_compute; apply list_elem_of_here).
  split; [exact Hin|].
  exact (proj2 (proj1 (startup_tracks_scanned_files "/repo"
                         (fun _ => Some 100) (get_go_files sample_tree ["repo"]))
                  "/repo/main.go") Hin).
Defined.

Lemma main_commits_only_go_files_witness :
  CommitChanges "/repo/pkg/util.go" "/repo" ∈ (main world_with_change).1
  ∧ "/repo" = str_path (resolve_repo_path world_with_change).
Proof.
  assert (Hin : CommitChanges "/repo/pkg/util.go" "/repo"
                ∈ (main world_with_change).1).
  { vm_compute.
    repeat first [apply list_elem_of_here | apply list_elem_of_further]. }
  split; [exact Hin|].
  exact (proj1 (proj2 (proj2
           (main_commits_only_go_files world_with_change _ _ Hin)))).
Defined.
